(** * Existentialism corpus agent: the retrieval-and-refusal gating pipeline

    A shallow embedding of [rag.py] (topic gate, retriever, support
    verifier, context assembler, generation call), of the Ask handler of
    [app.py] and of the text preparation of [ingest.py] (page texts,
    chunking, corpus records), with the properties of the gating pipeline
    and of the corpus proved over it.

    Conventions of the model.
    - A Python [str] is a [string]; the model covers ASCII text, one
      character per code point, so [len] is [String.length].
    - A similarity score is a Python float: a finite number, kept as
      the rational it denotes (the threshold 0.25 is a float exactly),
      one of the two infinities, or NaN, compared as IEEE 754 compares
      them: every comparison with NaN is False.
    - The embedding model, the FAISS index and the HTTP service are
      collaborators outside the repository: they are Section variables
      giving what the calls return. *)

From Stdlib Require Import Ascii String QArith.
From stdpp Require Import base decidable option list strings gmap pretty sorting.

Local Open Scope string_scope.
Local Open Scope list_scope.

(** ** Python string primitives *)

Module Text.

Definition code (c : ascii) : N := N_of_ascii c.

Definition is_upper (c : ascii) : bool := ((65 <=? code c) && (code c <=? 90))%N.
Definition is_lower (c : ascii) : bool := ((97 <=? code c) && (code c <=? 122))%N.
Definition is_digit (c : ascii) : bool := ((48 <=? code c) && (code c <=? 57))%N.

(** [[a-zA-Z]] *)
Definition is_alpha (c : ascii) : bool := is_upper c || is_lower c.

(** [\w] on ASCII text: letters, digits and the underscore. *)
Definition is_word (c : ascii) : bool :=
  is_alpha c || is_digit c || (code c =? 95)%N.

(** The characters [str.strip()] removes: TAB, LF, VT, FF, CR, the four
    separators FS GS RS US, and the space. *)
Definition is_space (c : ascii) : bool :=
  ((9 <=? code c) && (code c <=? 13) || (28 <=? code c) && (code c <=? 32))%N.

Definition lower_char (c : ascii) : ascii :=
  if is_upper c then ascii_of_N (code c + 32) else c.

(** [s.lower()] *)
Fixpoint lower (s : string) : string :=
  match s with
  | EmptyString => EmptyString
  | String c s' => String (lower_char c) (lower s')
  end.

Fixpoint lstrip (s : string) : string :=
  match s with
  | EmptyString => EmptyString
  | String c s' => if is_space c then lstrip s' else s
  end.

(** Strips the end of [s]: a character is dropped when it is a space and
    everything after it has been dropped. *)
Fixpoint rstrip (s : string) : string :=
  match s with
  | EmptyString => EmptyString
  | String c s' =>
      match rstrip s' with
      | EmptyString => if is_space c then EmptyString else String c EmptyString
      | r => String c r
      end
  end.

(** [s.strip()] *)
Definition strip (s : string) : string := rstrip (lstrip s).

Fixpoint starts_with (p s : string) : bool :=
  match p, s with
  | EmptyString, _ => true
  | String a p', String b s' => if Ascii.eqb a b then starts_with p' s' else false
  | String _ _, EmptyString => false
  end.

(** [t in s]: [t] occurs in [s] as a substring. *)
Fixpoint contains (t s : string) : bool :=
  starts_with t s ||
  match s with
  | EmptyString => false
  | String _ s' => contains t s'
  end.

(** [sep.join(parts)] *)
Fixpoint join (sep : string) (parts : list string) : string :=
  match parts with
  | [] => EmptyString
  | [p] => p
  | p :: rest => p ++ sep ++ join sep rest
  end.

(** The characters of the parts together, [sum(len(p) for p in parts)]. *)
Definition total_length (parts : list string) : nat :=
  foldr (fun p n => (String.length p + n)%nat) 0%nat parts.

Definition dquote : string := String (ascii_of_N 34) EmptyString.
Definition newline : string := String (ascii_of_N 10) EmptyString.

End Text.

(** ** The fragment of Python's [re] the pattern tables use

    Literals, escapes, [\b], groups with alternation, bracket classes of
    listed characters and the postfix [?]. The patterns are kept as the
    strings of the source and parsed; anything outside the fragment does
    not parse. *)

Module Re.

Inductive regex : Type :=
| Eps
| Chr (c : ascii)
| Cls (cs : list ascii)
| WordB
| Seq (r1 r2 : regex)
| Alt (r1 r2 : regex)
| Opt (r : regex).

Definition is_special (c : ascii) : bool :=
  existsb (Ascii.eqb c) (list_ascii_of_string ".^$*+?{}").

(** Members of a bracket class up to the closing bracket. A hyphen is a
    member only as the first or the last character; ranges, negation and
    escapes are outside the fragment. *)
Fixpoint parse_class (s : string) (acc : list ascii) : option (regex * string) :=
  match s with
  | EmptyString => None
  | String "]" rest => match acc with [] => None | _ => Some (Cls (rev acc), rest) end
  | String "-" rest =>
      match acc, rest with
      | [], _ => parse_class rest ["-"%char]
      | _, String "]" _ => parse_class rest ("-"%char :: acc)
      | _, _ => None
      end
  | String "\" _ => None
  | String "^" _ => None
  | String "[" _ => None
  | String c rest => parse_class rest (c :: acc)
  end.

Definition postfix (r : regex) (s : string) : regex * string :=
  match s with
  | String "?" rest => (Opt r, rest)
  | _ => (r, s)
  end.

(** [parse_alt] reads alternatives up to a closing parenthesis or the end,
    [parse_seq] a sequence of atoms, [parse_atom] one atom with its
    postfix. The fuel bounds the nesting and the number of atoms. *)
Fixpoint parse_alt (fuel : nat) (s : string) : option (regex * string) :=
  match fuel with
  | O => None
  | S n =>
      match parse_seq n s with
      | Some (r1, String "|" rest) =>
          match parse_alt n rest with
          | Some (r2, rest') => Some (Alt r1 r2, rest')
          | None => None
          end
      | other => other
      end
  end
with parse_seq (fuel : nat) (s : string) : option (regex * string) :=
  match fuel with
  | O => None
  | S n =>
      match s with
      | EmptyString => Some (Eps, s)
      | String "|" _ => Some (Eps, s)
      | String ")" _ => Some (Eps, s)
      | _ =>
          match parse_atom n s with
          | Some (r1, rest) =>
              match parse_seq n rest with
              | Some (Eps, rest') => Some (r1, rest')
              | Some (r2, rest') => Some (Seq r1 r2, rest')
              | None => None
              end
          | None => None
          end
      end
  end
with parse_atom (fuel : nat) (s : string) : option (regex * string) :=
  match fuel with
  | O => None
  | S n =>
      match s with
      | EmptyString => None
      | String "\" (String "b" rest) => Some (WordB, rest)
      | String "\" (String c rest) =>
          if Text.is_word c then None else Some (postfix (Chr c) rest)
      | String "\" EmptyString => None
      | String "(" rest =>
          match parse_alt n rest with
          | Some (r, String ")" rest') => Some (postfix r rest')
          | _ => None
          end
      | String "[" rest =>
          match parse_class rest [] with
          | Some (r, rest') => Some (postfix r rest')
          | None => None
          end
      | String c rest =>
          if is_special c then None else Some (postfix (Chr c) rest)
      end
  end.

(** [re.compile(p)]: the whole pattern must be consumed. *)
Definition compile (p : string) : option regex :=
  match parse_alt (3 * String.length p + 3) p with
  | Some (r, EmptyString) => Some r
  | _ => None
  end.

Definition word_before (prev : option ascii) : bool :=
  match prev with Some c => Text.is_word c | None => false end.

Definition word_after (s : string) : bool :=
  match s with String c _ => Text.is_word c | EmptyString => false end.

(** Backtracking matcher in continuation style: [matches r prev s k] tries
    [r] at the front of [s], where [prev] is the character before [s],
    and hands what is left to [k]. *)
Fixpoint matches (r : regex) (prev : option ascii) (s : string)
         (k : option ascii -> string -> bool) : bool :=
  match r with
  | Eps => k prev s
  | Chr c =>
      match s with
      | String x s' => if Ascii.eqb x c then k (Some x) s' else false
      | EmptyString => false
      end
  | Cls cs =>
      match s with
      | String x s' => if existsb (Ascii.eqb x) cs then k (Some x) s' else false
      | EmptyString => false
      end
  | WordB => if xorb (word_before prev) (word_after s) then k prev s else false
  | Seq r1 r2 => matches r1 prev s (fun p' s' => matches r2 p' s' k)
  | Alt r1 r2 => matches r1 prev s k || matches r2 prev s k
  | Opt r1 => matches r1 prev s k || k prev s
  end.

Definition match_here (r : regex) (prev : option ascii) (s : string) : bool :=
  matches r prev s (fun _ _ => true).

(** A match starting at some position of [s]. *)
Fixpoint search_from (r : regex) (prev : option ascii) (s : string) : bool :=
  match_here r prev s ||
  match s with
  | EmptyString => false
  | String c s' => search_from r (Some c) s'
  end.

(** What the matcher decides, as a relation: [derives r prev s prev' s']
    when [r] matches a prefix of [s] that leaves [s'], with [prev] the
    character before [s] and [prev'] the one before [s']. *)
Inductive derives : regex -> option ascii -> string -> option ascii -> string -> Prop :=
| derives_eps prev s :
    derives Eps prev s prev s
| derives_chr c prev s :
    derives (Chr c) prev (String c s) (Some c) s
| derives_cls cs c prev s :
    In c cs -> derives (Cls cs) prev (String c s) (Some c) s
| derives_wordb prev s :
    word_before prev <> word_after s -> derives WordB prev s prev s
| derives_seq r1 r2 prev s mid s1 prev' s' :
    derives r1 prev s mid s1 -> derives r2 mid s1 prev' s' ->
    derives (Seq r1 r2) prev s prev' s'
| derives_alt_l r1 r2 prev s prev' s' :
    derives r1 prev s prev' s' -> derives (Alt r1 r2) prev s prev' s'
| derives_alt_r r1 r2 prev s prev' s' :
    derives r2 prev s prev' s' -> derives (Alt r1 r2) prev s prev' s'
| derives_opt_some r prev s prev' s' :
    derives r prev s prev' s' -> derives (Opt r) prev s prev' s'
| derives_opt_none r prev s :
    derives (Opt r) prev s prev s.

(** The character before position [length pre] of [pre ++ rest], when
    [prev] is the one before the whole. *)
Fixpoint char_before (prev : option ascii) (pre : string) : option ascii :=
  match pre with
  | EmptyString => prev
  | String c pre' => char_before (Some c) pre'
  end.

(** [bool(re.search(p, s))]; a pattern outside the fragment matches
    nothing (none of the tables has one, see [tables_compile]). *)
Definition search (p s : string) : bool :=
  match compile p with
  | Some r => search_from r None s
  | None => false
  end.

End Re.

(** ** Python floats *)

Module Float.

(** A float is a finite number, an infinity or NaN. A finite float is
    kept as the rational it denotes; the two zeros, which compare equal,
    are one value. *)
Inductive float : Type :=
| Num (q : Q)
| PosInf
| NegInf
| NaN.

(** [x < y] of Python on floats: False as soon as one side is NaN. *)
Definition ltb (x y : float) : bool :=
  match x, y with
  | NaN, _ | _, NaN => false
  | _, NegInf => false
  | NegInf, _ => true
  | PosInf, _ => false
  | Num _, PosInf => true
  | Num a, Num b => negb (Qle_bool b a)
  end.

(** The order of the numbers and the infinities. NaN is not a number: it
    is neither below, nor above, nor equal to anything. *)
Definition lt (x y : float) : Prop :=
  match x, y with
  | NaN, _ | _, NaN => False
  | _, NegInf | PosInf, _ => False
  | NegInf, _ | _, PosInf => True
  | Num a, Num b => (a < b)%Q
  end.

Definition le (x y : float) : Prop :=
  match x, y with
  | NaN, _ | _, NaN => False
  | NegInf, _ | _, PosInf => True
  | Num a, Num b => (a <= b)%Q
  | _, _ => False
  end.

(** The lowest finite float32, -(2 - 2^-23) * 2^127: what a FAISS flat
    index puts in the score row where it has no neighbour to report. *)
Definition lowest_float32 : float :=
  Num ((-340282346638528859811704183484516925440) # 1).

End Float.

(** ** [rag.py] *)

Module Rag.

Definition REFUSAL_TEXT : string :=
  "I cannot answer this question within the constraints of this agent. " ++
  "The answer would require concepts or frameworks not contained in the provided corpus.".

Definition ALLOWED_TOPIC_PATTERNS : list string :=
  [ (* core movement / era *)
    "\bexistential(ism|ist)?\b";
    "\bsartre\b"; "\bjean[- ]paul\b";
    "\bbeauvoir\b"; "\bsimone\b";
    "\bcamus\b"; "\bheidegger\b";
    "\bhusserl\b"; "\bmerleau[- ]ponty\b";
    "\bjaspers\b";
    (* core existential vocabulary (general philosophical terms used in the corpus) *)
    "\bexistence\b"; "\bexist\b"; "\bto exist\b";
    "\bbeing\b"; "\bessence\b";
    (* core existentialist concepts (Sartre-heavy) *)
    "\bbad faith\b"; "\bmauvaise foi\b";
    "\bexistence precedes essence\b";
    "\bfreedom\b"; "\bresponsibilit(y|ies)\b";
    "\bauthentic(ity)?\b";
    "\banguish\b"; "\babandonment\b";
    "\bfor[- ]itself\b"; "\bin[- ]itself\b" ].

(** [any(re.search(p, q) for p in patterns)] *)
Definition any_search (patterns : list string) (q : string) : bool :=
  existsb (fun p => Re.search p q) patterns.

Definition in_allowed_domain (query : string) : bool :=
  let q := Text.lower query in
  any_search ALLOWED_TOPIC_PATTERNS q.

Definition BANNED_QUERY_PATTERNS : list string :=
  [ (* clinical / therapy / self-help *)
    "\bdepression\b"; "\banxiety\b"; "\btherapy\b"; "\btreat(ment)?\b";
    "\bpsychiatr(y|ic)\b"; "\bpsycholog(y|ical)\b"; "\bdiagnos(e|is)\b";
    "\bcope\b"; "\bheal(ing)?\b"; "\bwell[- ]?being\b";
    (* practical advice framing *)
    "\bwhat should i do\b"; "\bshould i\b"; "\bhelp me\b"; "\bovercome\b";
    "\bsteps\b"; "\badvice\b";
    (* comparison / outside-corpus traditions *)
    "\bcompare\b"; "\bvs\b"; "\bversus\b";
    "\bstoic(ism)?\b"; "\bbuddh(ism|ist)\b";
    "\bchristianity\b"; "\bislam\b"; "\bhindu(ism)?\b";
    (* modern topics likely outside corpus *)
    "\bai\b"; "\bartificial intelligence\b"; "\bsocial media\b"; "\bclimate change\b";
    "\btwitter\b"; "\btiktok\b"; "\binstagram\b"; "\bchatgpt\b" ].

Definition STOPWORDS : gset string :=
  {[ "the"; "a"; "an"; "and"; "or"; "to"; "of"; "in"; "on"; "for"; "with"; "is"; "are"; "was"; "were";
     "what"; "why"; "how"; "does"; "do"; "did"; "should"; "can"; "could"; "would"; "i"; "you"; "we";
     "my"; "your"; "our"; "me"; "it"; "this"; "that"; "these"; "those" ]}.

Definition has_banned_terms (query : string) : bool :=
  let q := Text.lower query in
  any_search BANNED_QUERY_PATTERNS q.

(** The runs of letters of [s] between its other characters, in order:
    a letter extends the first run of what follows, any other character
    closes a run. A run may be empty. *)
Fixpoint alpha_runs (s : string) : list string :=
  match s with
  | EmptyString => [EmptyString]
  | String c s' =>
      if Text.is_alpha c then
        match alpha_runs s' with
        | r :: rs => String c r :: rs
        | [] => [String c EmptyString]
        end
      else EmptyString :: alpha_runs s'
  end.

(** [re.findall(r"[a-zA-Z]{3,}", s)]: the quantifier is greedy and the
    scan resumes after each match, so the matches are the maximal runs of
    letters that have at least three of them. *)
Definition findall_alpha3 (s : string) : list string :=
  List.filter (fun t => (3 <=? String.length t)%nat) (alpha_runs s).

Definition _keywords (text : string) : list string :=
  let toks := findall_alpha3 (Text.lower text) in
  List.filter (fun t => bool_decide (t ∉ STOPWORDS)) toks.

(** The dict [retrieve] builds for a passage. *)
Record Passage : Type := mkPassage {
  score : Float.float;
  chunk : string;
  source : string;
  page : Z
}.

Definition query_supported_by_context (query : string) (passages : list Passage) : bool :=
  let q_terms : gset string := list_to_set (_keywords query) in
  if decide (q_terms = ∅) then false else
  let ctx := Text.lower (Text.join " " (map chunk passages)) in
  let hits := size (filter (fun t => Text.contains t ctx = true) q_terms) in
  let required := if decide (size q_terms <= 4)%nat then 1%nat else 2%nat in
  bool_decide (required <= hits)%nat.

(** [passages] is [None] for the default argument. *)
Definition should_refuse_query (query : string) (passages : option (list Passage)) : bool :=
  (* Gate A: hard banned categories *)
  if has_banned_terms query then true
  (* Gate B: enforce literal support from retrieved context *)
  else if match passages with
          | Some ps => negb (query_supported_by_context query ps)
          | None => false
          end then true
  else if negb (in_allowed_domain query) then true
  else false.

(** --- RAG Settings --- *)
Definition TOP_K : nat := 8.
Definition MIN_SCORE : Float.float := Float.Num (1 # 4).   (* 0.25 *)
Definition MIN_PASSAGES : nat := 2.
Definition MAX_CONTEXT_CHARS : nat := 3000.

Inductive Exn : Type :=
| IndexError
| RequestException (what : string)   (* raised by requests.post: timeout, connection *)
| HTTPError (status : Z)              (* raised by raise_for_status *)
| JSONDecodeError
| KeyError (key : string)
| AttributeError.

Inductive result (A : Type) : Type :=
| Ok (a : A)
| Raise (e : Exn).
Arguments Ok {A} a.
Arguments Raise {A} e.

(** A record of [chunks.json]. *)
Record Chunk : Type := mkChunk {
  c_chunk : string;
  c_source : string;
  c_page : Z
}.

(** [l[i]] of a Python list: a negative index counts from the end, an
    index out of range raises IndexError. *)
Definition py_getitem {A : Type} (l : list A) (i : Z) : result A :=
  let n := Z.of_nat (length l) in
  let j := if (i <? 0)%Z then (n + i)%Z else i in
  if ((0 <=? j) && (j <? n))%Z then
    match l !! Z.to_nat j with
    | Some x => Ok x
    | None => Raise IndexError
    end
  else Raise IndexError.

(** The loop of [retrieve] over [zip(scores[0], ids[0])]. *)
Fixpoint rank (chunks : list Chunk) (neighbours : list (Float.float * Z)) : result (list Passage) :=
  match neighbours with
  | [] => Ok []
  | (s, idx) :: rest =>
      if (idx =? -1)%Z then rank chunks rest
      else if Float.ltb s MIN_SCORE then rank chunks rest   (* filter weak passages *)
      else
        match py_getitem chunks idx with
        | Raise e => Raise e
        | Ok item =>
            match rank chunks rest with
            | Raise e => Raise e
            | Ok results =>
                Ok ({| score := s; chunk := c_chunk item;
                       source := c_source item; page := c_page item |} :: results)
            end
        end
  end.

Section Retrieval.

(** [index_search query k] is the row [(scores[0], ids[0])] that
    [index.search] returns for the normalised embedding of [query]. *)
Variable index_search : string -> nat -> list Float.float * list Z.
Variable chunks : list Chunk.

Definition retrieve (query : string) : result (list Passage * Float.float) :=
  let '(scores0, ids0) := index_search query TOP_K in
  let best := match scores0 with s :: _ => s | [] => Float.Num 0 end in
  match rank chunks (combine scores0 ids0) with
  | Raise e => Raise e
  | Ok results => Ok (results, best)
  end.

End Retrieval.

Definition snippet (p : Passage) : string :=
  "[" ++ source p ++ " p." ++ pretty (page p) ++ "] " ++ chunk p.

(** The loop of [build_context]: the snippets kept, with [total] the
    characters kept so far. *)
Fixpoint context_parts (passages : list Passage) (total : nat) : list string :=
  match passages with
  | [] => []
  | p :: rest =>
      let snip := snippet p in
      if (MAX_CONTEXT_CHARS <? total + String.length snip)%nat then []
      else snip :: context_parts rest (total + String.length snip)
  end.

Definition build_context (passages : list Passage) : string :=
  Text.join (Text.newline ++ Text.newline) (context_parts passages 0).

Definition refuse : string := REFUSAL_TEXT.

(** ----- Local LLM via Ollama (simple) ----- *)

(** The sentence that [SYSTEM_RULES] quotes under its REFUSAL RULE. *)
Definition SYSTEM_RULES_REFUSAL : string :=
  "I cannot answer this question within the constraints of this agent. The answer is not supported by the provided corpus.".

(** The triple-quoted text, line by line; it starts and ends with a line
    break. Its three characters outside ASCII are kept as their bytes. *)
Definition SYSTEM_RULES : string :=
  Text.join Text.newline
    [
      "";
      "You are a constrained philosophical agent representing Existentialism, and you are STRICTLY LIMITED to the provided context passages.";
      "You MUST NOT use any external knowledge, biography, dates, history, psychology/therapy, clinical language, or modern frameworks.";
      "If the context does not directly support the answer, you MUST refuse.";
      "";
      "REFUSAL RULE:";
      "If you cannot point to the provided context as evidence for your answer, respond ONLY with:";
      (Text.dquote ++ SYSTEM_RULES_REFUSAL ++ Text.dquote)%string;
      "";
      "STYLE:";
      "Be concise, intellectually playful (dry existential humor is allowed), and Socratic.";
      "You are not a therapist. No advice.";
      "";
      "MANDATORY OUTPUT STRUCTURE (NON-NEGOTIABLE):";
      "";
      "If you answer (i.e., do not refuse), your response MUST contain EXACTLY TWO sections:";
      "";
      "[SECTION 1] Explanation";
      "- Explain using ONLY the context passages.";
      "- Do NOT import external definitions or examples.";
      "- Include EXACTLY ONE short quote (â‰¤ 25 words) taken directly from the context passages.";
      "- If a source tag (filename/page) is present, include it.";
      "";
      "[SECTION 2] Question:";
      "- Write EXACTLY ONE reflective question.";
      "- The question must end with a question mark (?).";
      "- The question must make the user think.";
      "- The question must relate to the concept explained in Section 1.";
      "- Do NOT give advice, therapy, or prescriptions.";
      "";
      "If this structure is violated, the response is INVALID and must be regenerated.";
      ""
    ].

(** The JSON body of a response, as far as the code reads it. *)
Inductive JsonValue : Type :=
| JString (s : string)
| JOther.

Record Response : Type := mkResponse {
  status_code : Z;
  (** [r.json()]: [None] when the body does not decode to an object. *)
  json : option (gmap string JsonValue)
}.

Record Payload : Type := mkPayload {
  model : string;
  prompt : string;
  stream : bool
}.

(** What [raise_for_status] of the requests library does: it raises for
    the client and server error codes 400 to 599 and returns otherwise. *)
Definition requests_raise_for_status (r : Response) : option Exn :=
  if ((400 <=? status_code r) && (status_code r <? 600))%Z
  then Some (HTTPError (status_code r)) else None.

Section Generation.

(** [os.getenv] with its defaults. *)
Variable OLLAMA_URL : string.
Variable OLLAMA_MODEL : string.

(** [requests.post(url, json=payload, timeout=seconds)]: a response, or
    the exception of a timeout or a connection fault. *)
Variable requests_post : string -> Payload -> nat -> result Response.

(** [r.raise_for_status()]: the exception it raises, if any. *)
Variable raise_for_status : Response -> option Exn.

Definition build_prompt (query context : string) : string :=
  SYSTEM_RULES ++ Text.newline ++ Text.newline ++
  "User question: " ++ query ++ Text.newline ++ Text.newline ++
  "Context passages (ONLY allowed source):" ++ Text.newline ++
  context ++ Text.newline ++ Text.newline ++
  "Now respond following the mandatory structure.".

Definition generate_answer (query context : string) : result string :=
  let prompt := build_prompt query context in
  let payload := {| model := OLLAMA_MODEL; prompt := prompt; stream := false |} in
  match requests_post OLLAMA_URL payload 120 with
  | Raise e => Raise e
  | Ok r =>
      match raise_for_status r with
      | Some e => Raise e
      | None =>
          match json r with
          | None => Raise JSONDecodeError
          | Some d =>
              match d !! "response" with
              | None => Raise (KeyError "response")
              | Some (JString text) => Ok (Text.strip text)
              | Some JOther => Raise AttributeError
              end
          end
      end
  end.

End Generation.

End Rag.

(** ** [app.py]: the Ask handler *)

Module App.
Import Rag.

(** What a run of the handler does that can be observed: the calls into
    [rag.py], in order, and what is put on the page. Styling and headings
    are left out. *)
Inductive Event : Type :=
| Call_should_refuse_query (query : string) (passages : option (list Passage))
| Call_retrieve (query : string)
| Call_build_context (passages : list Passage)
| Call_generate_answer (query context : string)
| St_error (msg : string)
| St_write_scores (best threshold : Float.float)
| St_answer (answer : string)
| St_sources (passages : list Passage)
| St_context (context : string).

(** How a script run ends: it runs to its end, [st.stop()] halts it, or
    an exception leaves it. *)
Inductive ending (A : Type) : Type :=
| Done (a : A)
| Stopped
| Failed (e : Exn).
Arguments Done {A} a.
Arguments Stopped {A}.
Arguments Failed {A} e.

(** A computation of the handler: the events so far and how it ended. *)
Definition M (A : Type) : Type := (list Event * ending A)%type.

#[export] Instance M_ret : MRet M := fun A a => ([], Done a).

#[export] Instance M_bind : MBind M := fun A B f m =>
  match m with
  | (tr, Done a) => let '(tr', e) := f a in (tr ++ tr', e)
  | (tr, Stopped) => (tr, Stopped)
  | (tr, Failed e) => (tr, Failed e)
  end.

Definition trace {A : Type} (m : M A) : list Event := fst m.
Definition ends {A : Type} (m : M A) : ending A := snd m.

(** A call into [rag.py]: it is recorded, and it returns or raises. *)
Definition call {A : Type} (ev : Event) (r : result A) : M A :=
  match r with
  | Ok a => ([ev], Done a)
  | Raise e => ([ev], Failed e)
  end.

Definition emit (ev : Event) : M unit := ([ev], Done tt).

Definition st_error (msg : string) : M unit := emit (St_error msg).
Definition st_stop : M unit := ([], Stopped).

(** An [if] without [else]. *)
Definition when (c : bool) (body : M unit) : M unit :=
  if c then body else mret tt.

Section Handler.

Variable index_search : string -> nat -> list Float.float * list Z.
Variable chunks : list Chunk.
Variable OLLAMA_URL : string.
Variable OLLAMA_MODEL : string.
Variable requests_post : string -> Payload -> nat -> result Response.
Variable raise_for_status : Response -> option Exn.

(** The body of [if st.button("Ask") and query.strip():]. *)
Definition pipeline (query : string) : M unit :=
  (* Gate 1: forbidden topics *)
  refused ← call (Call_should_refuse_query query None)
                 (Ok (should_refuse_query query None));
  when refused (st_error refuse;; st_stop);;
  '(passages, best) ← call (Call_retrieve query)
                           (retrieve index_search chunks query);
  emit (St_write_scores best MIN_SCORE);;
  when (Float.ltb best MIN_SCORE || (length passages =? 0)%nat)
       (st_error refuse;; st_stop);;
  (* Gate 2: literal support check *)
  unsupported ← call (Call_should_refuse_query query (Some passages))
                     (Ok (should_refuse_query query (Some passages)));
  when unsupported (st_error refuse;; st_stop);;
  context ← call (Call_build_context passages) (Ok (build_context passages));
  answer ← call (Call_generate_answer query context)
                (generate_answer OLLAMA_URL OLLAMA_MODEL requests_post
                                 raise_for_status query context);
  (* Gate 3: model self-refusal *)
  when (String.eqb (Text.strip answer) (Text.strip refuse))
       (st_error refuse;; st_stop);;
  emit (St_answer answer);;
  emit (St_sources passages);;
  emit (St_context context).

(** One run of the script: [clicked] is what [st.button("Ask")]
    returns. *)
Definition ask (clicked : bool) (query : string) : M unit :=
  if clicked && negb (String.eqb (Text.strip query) "")
  then pipeline query
  else mret tt.

End Handler.

(** The events of a run up to each of its stages. *)
Definition upto_retrieve (query : string) : list Event :=
  [Call_should_refuse_query query None; Call_retrieve query].

Definition upto_scores (query : string) (best : Float.float) : list Event :=
  upto_retrieve query ++ [St_write_scores best MIN_SCORE].

Definition upto_support (query : string) (passages : list Passage) (best : Float.float)
  : list Event :=
  upto_scores query best ++ [Call_should_refuse_query query (Some passages)].

Definition upto_generate (query : string) (passages : list Passage) (best : Float.float)
  : list Event :=
  upto_support query passages best ++
  [Call_build_context passages;
   Call_generate_answer query (build_context passages)].

(** The two terminal states of a query. *)
Definition refused (m : M unit) : Prop :=
  ends m = Stopped /\
  last (trace m) = Some (St_error REFUSAL_TEXT) /\
  forall a, St_answer a ∉ trace m.

Definition answered (m : M unit) (answer : string) : Prop :=
  ends m = Done tt /\
  St_answer answer ∈ trace m /\
  forall msg, St_error msg ∉ trace m.

End App.

(** ** The four gates of the pipeline, as conditions on a query *)

Module Gates.
Import Rag.

(** Topic gate: [should_refuse_query(query)] does not refuse. *)
Definition topic_gate_passes (query : string) : Prop :=
  should_refuse_query query None = false.

(** Score gate: neither [best < MIN_SCORE] nor [len(passages) == 0]. The
    best score is not below the threshold when it is at least the
    threshold, and when it is NaN. *)
Definition score_gate_passes (passages : list Passage) (best : Float.float) : Prop :=
  (best = Float.NaN \/ Float.le MIN_SCORE best) /\ passages <> [].

(** Support gate: the support verifier accepts the query. *)
Definition support_gate_passes (query : string) (passages : list Passage) : Prop :=
  query_supported_by_context query passages = true.

(** Self-refusal check: the stripped answer is not the stripped refusal. *)
Definition self_refusal_gate_passes (answer : string) : Prop :=
  Text.strip answer <> Text.strip REFUSAL_TEXT.

(** A fault of the generation service on a request: the call itself
    raises (a timeout, a connection fault), or the response has a status
    that [raise_for_status] rejects. *)
Definition service_fault
    (requests_post : string -> Payload -> nat -> result Response)
    (raise_for_status : Response -> option Exn)
    (url : string) (payload : Payload) (e : Exn) : Prop :=
  requests_post url payload 120%nat = Raise e \/
  exists r, requests_post url payload 120%nat = Ok r /\ raise_for_status r = Some e.

End Gates.

(** ** Concrete collaborators for the scenarios *)

Module Scenario.
Import Rag App.

Definition sartre_query : string := "What does Sartre mean by abandonment?".

Definition corpus : list Chunk :=
  [ mkChunk "For Sartre, abandonment means that we ourselves decide our being." "sartre.pdf" 12;
    mkChunk "Anguish is the recognition of freedom." "sartre.pdf" 13 ].

(** A search whose closest neighbour scores 0.75, the next one 0.10. *)
Definition strong_search (query : string) (k : nat) : list Float.float * list Z :=
  ([Float.Num (3 # 4); Float.Num (1 # 10)], [0; 1]%Z).

(** A search whose closest neighbour scores 0.10. *)
Definition weak_search (query : string) (k : nat) : list Float.float * list Z :=
  ([Float.Num (1 # 10); Float.Num (1 # 20)], [0; 1]%Z).


(** A search that finds no neighbour, as over an empty index: the row
    has its [k] entries, every identifier is -1 and every score the
    lowest float32. *)
Definition missing_search (query : string) (k : nat) : list Float.float * list Z :=
  (replicate k Float.lowest_float32, replicate k (-1)%Z).

(** A search whose one neighbour has a score that is not a number. *)
Definition nan_search (query : string) (k : nat) : list Float.float * list Z :=
  ([Float.NaN], [0%Z]).

(** The passage of [corpus] that [nan_search] keeps. *)
Definition nan_passage : Passage :=
  mkPassage Float.NaN
    "For Sartre, abandonment means that we ourselves decide our being."
    "sartre.pdf" 12.

(** A generation service that answers every request with [text]. *)
Definition replies (text : string) (url : string) (p : Payload) (timeout : nat)
  : result Response :=
  Ok (mkResponse 200 (Some {[ "response" := JString text ]})).

(** A generation service that answers with an HTTP status and no body. *)
Definition fails_with (status : Z) (url : string) (p : Payload) (timeout : nat)
  : result Response :=
  Ok (mkResponse status None).

Definition times_out (url : string) (p : Payload) (timeout : nat) : result Response :=
  Raise (RequestException "Read timed out. (read timeout=120)").

(** The one passage of [corpus] that [strong_search] keeps. *)
Definition kept_passage : Passage :=
  mkPassage (Float.Num (3 # 4))
    "For Sartre, abandonment means that we ourselves decide our being."
    "sartre.pdf" 12.

Definition url : string := "http://localhost:11434/api/generate".
Definition llm : string := "llama3.1".

Definition good_answer : string :=
  "[SECTION 1] Explanation ... [SECTION 2] Question: What do you decide?".

Fixpoint repeat_string (n : nat) (c : ascii) : string :=
  match n with
  | O => EmptyString
  | S n' => String c (repeat_string n' c)
  end.

(** Four retrieved passages whose snippets have 750 characters each: a
    tag of 12 characters and a chunk of 738. *)
Definition full_passage : Passage :=
  mkPassage (Float.Num (1 # 2)) (repeat_string 738 "a") "a.pdf" 1.
Definition full_passages : list Passage :=
  [full_passage; full_passage; full_passage; full_passage].

End Scenario.

(** ** The support verifier in the words of its specification *)

Module SupportSpec.
Import Rag.

Fixpoint all_alpha (t : string) : bool :=
  match t with
  | EmptyString => true
  | String c t' => Text.is_alpha c && all_alpha t'
  end.

Definition alpha_at_start (s : string) : bool :=
  match s with
  | String c _ => Text.is_alpha c
  | EmptyString => false
  end.

Fixpoint alpha_at_end (s : string) : bool :=
  match s with
  | EmptyString => false
  | String c EmptyString => Text.is_alpha c
  | String _ s' => alpha_at_end s'
  end.

(** [t] is an alphabetic token of [s]: a stretch of letters of [s] with no
    letter right before it and none right after it. *)
Definition alpha_token (t s : string) : Prop :=
  exists pre post : string,
    s = (pre ++ t ++ post)%string /\
    all_alpha t = true /\
    alpha_at_end pre = false /\
    alpha_at_start post = false.

(** The distinct lower-cased alphabetic tokens of at least three letters
    of the query, minus the stopwords. *)
Definition content_terms (query : string) : gset string :=
  list_to_set (findall_alpha3 (Text.lower query)) ∖ STOPWORDS.

(** The lower-cased text of the passages' chunks, joined by single
    spaces. *)
Definition context_text (passages : list Passage) : string :=
  Text.lower (Text.join " " (map chunk passages)).

(** How many of the content terms occur in the context text. *)
Definition hit_count (query : string) (passages : list Passage) : nat :=
  size (filter (fun t => Text.contains t (context_text passages) = true)
               (content_terms query)).

Definition required_hits (query : string) : nat :=
  if decide (size (content_terms query) <= 4)%nat then 1%nat else 2%nat.

End SupportSpec.

(** ** [ingest.py]: text normalisation, chunking and the corpus records *)

Module Ingest.
Import Rag.

Definition CHUNK_SIZE : Z := 800.      (* characters *)
Definition CHUNK_OVERLAP : Z := 150.   (* characters *)

(** The first [n] characters of [s], and [s] without them. *)
Fixpoint str_take (n : nat) (s : string) : string :=
  match n, s with
  | S n', String c s' => String c (str_take n' s')
  | _, _ => EmptyString
  end.

Fixpoint str_drop (n : nat) (s : string) : string :=
  match n, s with
  | S n', String _ s' => str_drop n' s'
  | _, _ => s
  end.

(** A slice bound as Python reads it: a negative bound counts from the end,
    and the result is clamped to the string. *)
Definition slice_bound (len i : Z) : Z :=
  let j := if (i <? 0)%Z then (len + i)%Z else i in
  Z.max 0 (Z.min j len).

(** [s[a:b]] *)
Definition py_slice (s : string) (a b : Z) : string :=
  let len := Z.of_nat (String.length s) in
  let lo := slice_bound len a in
  let hi := slice_bound len b in
  str_take (Z.to_nat (hi - lo)) (str_drop (Z.to_nat lo) s).

(** The [while] loop of [chunk_text] from position [start] on; the chunks
    appended from there, or [None] when [fuel] iterations do not end it. *)
Fixpoint chunk_loop (fuel : nat) (text : string) (chunk_size overlap start : Z)
  : option (list string) :=
  match fuel with
  | O => None
  | S fuel' =>
      let len := Z.of_nat (String.length text) in
      if (start <? len)%Z then
        let end_ := Z.min (start + chunk_size) len in
        let piece := py_slice text start end_ in
        if (end_ =? len)%Z then Some [piece]
        else
          match chunk_loop fuel' text chunk_size overlap (end_ - overlap) with
          | Some rest => Some (piece :: rest)
          | None => None
          end
      else Some []
  end.

Definition chunk_text (fuel : nat) (text : string) (chunk_size overlap : Z)
  : option (list string) :=
  chunk_loop fuel text chunk_size overlap 0.

(** The stretches of [s] between its whitespace characters, in order; a
    stretch may be empty. *)
Fixpoint space_fields (s : string) : list string :=
  match s with
  | EmptyString => [EmptyString]
  | String c s' =>
      if Text.is_space c then EmptyString :: space_fields s'
      else
        match space_fields s' with
        | r :: rs => String c r :: rs
        | [] => [String c EmptyString]
        end
  end.

(** [s.split()]: the words of [s], split at runs of whitespace. *)
Definition split (s : string) : list string :=
  List.filter (fun w => negb (String.eqb w "")) (space_fields s).

(** [" ".join(text.split())] *)
Definition normalize (text : string) : string :=
  Text.join " " (split text).

(** A record of [read_pdf_text]. *)
Record Page : Type := mkPage {
  p_text : string;
  p_page : Z;
  p_source : string
}.

(** The loop of [read_pdf_text] over [enumerate(reader.pages)] from index
    [i] on; [extracted] holds what [extract_text()] gives for each page,
    [None] included. *)
Fixpoint read_pages (name : string) (extracted : list (option string)) (i : Z)
  : list Page :=
  match extracted with
  | [] => []
  | e :: rest =>
      (* page.extract_text() or "" *)
      let text := match e with Some t => t | None => EmptyString end in
      let text := normalize text in
      if negb (String.eqb (Text.strip text) "") then
        {| p_text := text; p_page := (i + 1)%Z; p_source := name |}
          :: read_pages name rest (i + 1)%Z
      else read_pages name rest (i + 1)%Z
  end.

Definition read_pdf_text (name : string) (extracted : list (option string))
  : list Page :=
  read_pages name extracted 0.

(** The records of one page: one per chunk of its text. The loop of
    [chunk_text] gets one iteration per character and one more. *)
Definition page_records (pg : Page) : option (list Chunk) :=
  match chunk_text (S (String.length (p_text pg))) (p_text pg)
                   CHUNK_SIZE CHUNK_OVERLAP with
  | Some pieces =>
      Some (map (fun piece => {| c_chunk := piece; c_source := p_source pg;
                                 c_page := p_page pg |}) pieces)
  | None => None
  end.

Fixpoint pages_records (pages : list Page) : option (list Chunk) :=
  match pages with
  | [] => Some []
  | pg :: rest =>
      match page_records pg, pages_records rest with
      | Some recs, Some more => Some (recs ++ more)
      | _, _ => None
      end
  end.

(** [build_corpus] over the PDF files found, each given by its name and
    the extracted text of its pages. *)
Fixpoint build_corpus (pdfs : list (string * list (option string)))
  : option (list Chunk) :=
  match pdfs with
  | [] => Some []
  | (name, extracted) :: rest =>
      match pages_records (read_pdf_text name extracted), build_corpus rest with
      | Some recs, Some more => Some (recs ++ more)
      | _, _ => None
      end
  end.

End Ingest.

(** ** Notions the further properties are stated with *)

Module Notions.
Import Rag.

(** The text that chunks with an overlap of [overlap] characters stand
    for: the first chunk, then every later chunk without its first
    [overlap] characters. *)
Definition unchunk (overlap : nat) (chunks : list string) : string :=
  match chunks with
  | [] => EmptyString
  | first :: rest =>
      (first ++ Text.join "" (map (Ingest.str_drop overlap) rest))%string
  end.

(** The last [n] characters of [s]. *)
Definition str_last (n : nat) (s : string) : string :=
  Ingest.str_drop (String.length s - n) s.

Fixpoint all_chars (P : ascii -> bool) (s : string) : bool :=
  match s with
  | EmptyString => true
  | String c s' => P c && all_chars P s'
  end.

Definition not_space (c : ascii) : bool := negb (Text.is_space c).

(** A word: at least one character, none of them whitespace. *)
Definition word (w : string) : Prop :=
  w <> EmptyString /\ all_chars not_space w = true.

(** A page without text: no character, or whitespace only. *)
Definition blank (extracted : option string) : Prop :=
  match extracted with
  | Some t => all_chars Text.is_space t = true
  | None => True
  end.

(** What holds of a record made from a page. *)
Definition record_of_page (pg : Ingest.Page) (r : Chunk) : Prop :=
  c_source r = Ingest.p_source pg /\ c_page r = Ingest.p_page pg /\
  (exists pre post : string, Ingest.p_text pg = (pre ++ c_chunk r ++ post)%string) /\
  (1 <= String.length (c_chunk r) <= 800)%nat.

(** Scores from the highest down. NaN has no place in the order, so a
    row that holds a NaN is sorted only when it holds nothing else. *)
Definition descending (scores : list Float.float) : Prop :=
  StronglySorted (fun a b => Float.le b a) scores.

(** A neighbour that passes the two tests of the loop of [retrieve]: it
    is not marked missing, and its score is not below the threshold. *)
Definition strong_neighbour (n : Float.float * Z) : Prop :=
  snd n <> (-1)%Z /\ (fst n = Float.NaN \/ Float.le MIN_SCORE (fst n)).

End Notions.

(** * Properties *)

(** ** String primitives *)

Section TextFacts.

Lemma starts_with_prefix (p s : string) :
  Text.starts_with p s = true <-> exists post : string, s = (p ++ post)%string.
Proof.
  revert s. induction p as [|a p IH]; intros s; simpl.
  - split; [intros _; by exists s | reflexivity].
  - destruct s as [|b s].
    + split; [discriminate | intros (post & Heq); discriminate].
    + destruct (Ascii.eqb_spec a b) as [->|Hne].
      * rewrite IH. split; intros (post & Heq); exists post.
        -- by rewrite Heq.
        -- by injection Heq.
      * split; [discriminate|]. intros (post & Heq). injection Heq as ? _.
        congruence.
Qed.

(** [t in s] holds exactly when [s] is some text, then [t], then some
    text. *)
Lemma contains_substring (t s : string) :
  Text.contains t s = true <->
  exists pre post : string, s = (pre ++ t ++ post)%string.
Proof.
  induction s as [|c s IH]; simpl.
  - rewrite orb_false_r, starts_with_prefix. split.
    + intros (post & Heq). by exists "", post.
    + intros ([|d pre] & post & Heq); [by exists post | discriminate].
  - rewrite orb_true_iff, starts_with_prefix, IH. split.
    + intros [(post & Heq)|(pre & post & ->)].
      * by exists "", post.
      * by exists (String c pre), post.
    + intros ([|d pre] & post & Heq).
      * left. by exists post.
      * right. injection Heq as _ ->. by exists pre, post.
Qed.

Example lower_mixed : Text.lower "What IS Bad-Faith?" = "what is bad-faith?".
Proof. reflexivity. Qed.

Example strip_both_ends :
  Text.strip (" " ++ Text.newline ++ "an answer " ++ Text.newline) = "an answer".
Proof. reflexivity. Qed.

Example strip_blank : Text.strip "   " = "".
Proof. reflexivity. Qed.

End TextFacts.

(** ** Pattern matching *)

Section Patterns.

(** A word boundary keeps "ai" from matching inside "pain". *)
Example search_word_boundary :
  Re.search "\bai\b" "is ai conscious?" = true /\
  Re.search "\bai\b" "what is pain?" = false.
Proof. split; vm_compute; reflexivity. Qed.

Example search_group :
  Re.search "\bexistential(ism|ist)?\b" "an existentialist view" = true /\
  Re.search "\bexistential(ism|ist)?\b" "existentially" = false.
Proof. split; vm_compute; reflexivity. Qed.

Example search_class :
  Re.search "\bwell[- ]?being\b" "on wellbeing" = true /\
  Re.search "\bwell[- ]?being\b" "on well-being" = true /\
  Re.search "\bwell[- ]?being\b" "on well  being" = false.
Proof. repeat split; vm_compute; reflexivity. Qed.

End Patterns.

(** ** Topic gate *)

Section TopicGate.
Import Rag.

(** Every pattern of the two tables lies in the supported fragment. *)
Lemma tables_compile :
  Forall (fun p => is_Some (Re.compile p))
         (ALLOWED_TOPIC_PATTERNS ++ BANNED_QUERY_PATTERNS).
Proof.
  unfold ALLOWED_TOPIC_PATTERNS, BANNED_QUERY_PATTERNS.
  repeat (apply Forall_cons; split; [vm_compute; eexists; reflexivity|]).
  apply Forall_nil_2.
Qed.

(** The matcher decides the relation [Re.derives]. *)
Lemma matches_derives (r : Re.regex) :
  forall prev s k,
    Re.matches r prev s k = true <->
    exists prev' s', Re.derives r prev s prev' s' /\ k prev' s' = true.
Proof.
  induction r as [|c|cs| |r1 IH1 r2 IH2|r1 IH1 r2 IH2|r IH]; intros prev s k; simpl.
  - split.
    + intros Hk. exists prev, s. split; [constructor | exact Hk].
    + intros (prev' & s' & Hd & Hk). by inversion Hd; subst.
  - destruct s as [|x s]; [split; [discriminate|]|].
    + intros (prev' & s' & Hd & _). inversion Hd.
    + destruct (Ascii.eqb_spec x c) as [->|Hne]; split.
      * intros Hk. exists (Some c), s. split; [constructor | exact Hk].
      * intros (prev' & s' & Hd & Hk). by inversion Hd; subst.
      * discriminate.
      * intros (prev' & s' & Hd & _). inversion Hd; subst. by destruct Hne.
  - destruct s as [|x s]; [split; [discriminate|]|].
    + intros (prev' & s' & Hd & _). inversion Hd.
    + destruct (existsb (Ascii.eqb x) cs) eqn:Hin; split.
      * intros Hk. exists (Some x), s. split; [|exact Hk].
        constructor. apply existsb_exists in Hin as (y & Hy & Hxy).
        by apply Ascii.eqb_eq in Hxy as ->.
      * intros (prev' & s' & Hd & Hk). by inversion Hd; subst.
      * discriminate.
      * intros (prev' & s' & Hd & _). inversion Hd; subst.
        apply not_true_iff_false in Hin. destruct Hin.
        apply existsb_exists. exists x. split; [assumption | apply Ascii.eqb_refl].
  - destruct (xorb (Re.word_before prev) (Re.word_after s)) eqn:Hb; split.
    + intros Hk. exists prev, s. split; [|exact Hk]. constructor.
      by destruct (Re.word_before prev), (Re.word_after s).
    + intros (prev' & s' & Hd & Hk). by inversion Hd; subst.
    + discriminate.
    + intros (prev' & s' & Hd & _). inversion Hd as [| | |? ? Hne| | | | |]; subst.
      by destruct (Re.word_before prev'), (Re.word_after s').
  - rewrite IH1. split.
    + intros (mid & s1 & Hd1 & Hk). apply IH2 in Hk as (prev' & s' & Hd2 & Hk).
      exists prev', s'. split; [econstructor; eassumption | exact Hk].
    + intros (prev' & s' & Hd & Hk). inversion Hd; subst.
      eexists _, _. split; [eassumption|]. apply IH2. eauto.
  - rewrite orb_true_iff, IH1, IH2. split.
    + intros [(prev' & s' & Hd & Hk)|(prev' & s' & Hd & Hk)];
        exists prev', s'; (split; [|exact Hk]).
      * by apply Re.derives_alt_l.
      * by apply Re.derives_alt_r.
    + intros (prev' & s' & Hd & Hk). inversion Hd; subst; eauto.
  - rewrite orb_true_iff, IH. split.
    + intros [(prev' & s' & Hd & Hk)|Hk].
      * exists prev', s'. split; [by apply Re.derives_opt_some | exact Hk].
      * exists prev, s. split; [apply Re.derives_opt_none | exact Hk].
    + intros (prev' & s' & Hd & Hk). inversion Hd; subst; eauto.
Qed.

Lemma match_here_derives (r : Re.regex) (prev : option ascii) (s : string) :
  Re.match_here r prev s = true <-> exists prev' s', Re.derives r prev s prev' s'.
Proof.
  unfold Re.match_here. rewrite matches_derives.
  split; intros (prev' & s' & H); exists prev', s'; tauto.
Qed.

(** [search_from] finds a match at some position of the string. *)
Lemma search_from_derives (r : Re.regex) (s : string) :
  forall prev,
    Re.search_from r prev s = true <->
    exists (pre rest : string) prev' s',
      s = (pre ++ rest)%string /\
      Re.derives r (Re.char_before prev pre) rest prev' s'.
Proof.
  induction s as [|c s IH]; intros prev; simpl.
  - rewrite orb_false_r, match_here_derives. split.
    + intros (prev' & s' & Hd). by exists "", "", prev', s'.
    + intros (pre & rest & prev' & s' & Heq & Hd).
      destruct pre; [|discriminate]. change rest with ("" ++ rest)%string in Hd.
      rewrite <- Heq in Hd. eauto.
  - rewrite orb_true_iff, match_here_derives, IH. split.
    + intros [(prev' & s' & Hd)|(pre & rest & prev' & s' & -> & Hd)].
      * by exists "", (String c s), prev', s'.
      * by exists (String c pre), rest, prev', s'.
    + intros (pre & rest & prev' & s' & Heq & Hd).
      destruct pre as [|c' pre].
      * change ("" ++ rest)%string with rest in Heq. subst rest. left. eauto.
      * change (String c' pre ++ rest)%string with (String c' (pre ++ rest)) in Heq.
        injection Heq as <- ->. right. simpl in Hd. eauto 6.
Qed.

Lemma any_search_true (patterns : list string) (q : string) :
  any_search patterns q = true <->
  exists p, p ∈ patterns /\ Re.search p q = true.
Proof.
  unfold any_search. rewrite existsb_exists.
  split; intros (p & Hin & Hm); exists p; split; auto;
    by apply list_elem_of_In.
Qed.

Lemma any_search_false (patterns : list string) (q : string) :
  any_search patterns q = false <->
  forall p, p ∈ patterns -> Re.search p q = false.
Proof.
  rewrite <- not_true_iff_false, any_search_true. split.
  - intros Hno p Hin. apply not_true_iff_false. intros Hm. apply Hno. eauto.
  - intros Hall (p & Hin & Hm). rewrite (Hall p Hin) in Hm. discriminate.
Qed.

(** The value of [should_refuse_query] as one boolean expression. *)
Lemma should_refuse_query_value (query : string) (passages : option (list Passage)) :
  should_refuse_query query passages =
  has_banned_terms query
  || match passages with
     | Some ps => negb (query_supported_by_context query ps)
     | None => false
     end
  || negb (in_allowed_domain query).
Proof.
  unfold should_refuse_query.
  destruct (has_banned_terms query); [reflexivity|].
  destruct passages as [ps|]; simpl;
    [destruct (query_supported_by_context query ps); simpl|];
    destruct (in_allowed_domain query); reflexivity.
Qed.

(** C2. A query that matches, once lower-cased, at least one banned-term
    pattern is refused by [should_refuse_query], whether the passages
    argument is absent or present and whatever it holds: the banned-term
    check comes first and nothing after it is consulted. *)
Theorem banned_terms_force_refusal (query : string) (passages : option (list Passage)) :
  (exists p, p ∈ BANNED_QUERY_PATTERNS /\ Re.search p (Text.lower query) = true) ->
  should_refuse_query query passages = true.
Proof.
  intros Hbanned. apply any_search_true in Hbanned.
  unfold should_refuse_query, has_banned_terms. cbv zeta.
  rewrite Hbanned. reflexivity.
Qed.

(** C3. A query that matches, once lower-cased, none of the allowed-domain
    patterns is refused by [should_refuse_query], with the passages
    argument absent as well as present. *)
Theorem outside_allowed_domain_refused (query : string) (passages : option (list Passage)) :
  (forall p, p ∈ ALLOWED_TOPIC_PATTERNS -> Re.search p (Text.lower query) = false) ->
  should_refuse_query query passages = true.
Proof.
  intros Hnone. apply any_search_false in Hnone.
  rewrite should_refuse_query_value.
  unfold in_allowed_domain. cbv zeta. rewrite Hnone.
  apply orb_true_r.
Qed.

End TopicGate.

(** Scenario 2 of the specification, with and without passages. *)
Lemma banned_terms_force_refusal_witness :
  Rag.should_refuse_query "How do I cope with anxiety using existentialism?" None = true /\
  Rag.should_refuse_query "How do I cope with anxiety using existentialism?"
    (Some [Rag.mkPassage (Float.Num (1 # 2)) "Anxiety and existentialism." "a.pdf" 1]) = true.
Proof.
  split; apply banned_terms_force_refusal; exists "\banxiety\b";
    (split; [set_solver | vm_compute; reflexivity]).
Defined.

Lemma outside_allowed_domain_refused_witness :
  Rag.should_refuse_query "Which wine goes with cheese?" None = true /\
  Rag.should_refuse_query "Which wine goes with cheese?"
    (Some [Rag.mkPassage (Float.Num (1 # 2)) "wine and cheese" "a.pdf" 1]) = true.
Proof.
  split; apply outside_allowed_domain_refused;
    apply any_search_false; vm_compute; reflexivity.
Defined.

(** ** Support verifier *)

Section SupportVerifier.
Import Rag SupportSpec.

Lemma app_nil_l_str (s : string) : ("" ++ s)%string = s.
Proof. reflexivity. Qed.

Lemma app_cons_str (c : ascii) (s t : string) :
  (String c s ++ t)%string = String c (s ++ t).
Proof. reflexivity. Qed.

Lemma alpha_at_end_cons (c : ascii) (s : string) :
  s <> "" -> alpha_at_end (String c s) = alpha_at_end s.
Proof. destruct s; [done | reflexivity]. Qed.

(** The stretch of letters at the front of a string is determined by it. *)
Lemma alpha_prefix_unique (t1 t2 post1 post2 : string) :
  (t1 ++ post1)%string = (t2 ++ post2)%string ->
  all_alpha t1 = true -> alpha_at_start post1 = false ->
  all_alpha t2 = true -> alpha_at_start post2 = false ->
  t1 = t2.
Proof.
  revert t2. induction t1 as [|c t1 IH]; intros [|d t2];
    rewrite ?app_nil_l_str, ?app_cons_str; simpl.
  - reflexivity.
  - intros -> _ Hstart Hd _. simpl in Hstart.
    apply andb_true_iff in Hd as [Hd _]. congruence.
  - intros <- Hc _ _ Hstart. simpl in Hstart.
    apply andb_true_iff in Hc as [Hc _]. congruence.
  - intros [= <- Heq] Hc H1 Hd H2.
    apply andb_true_iff in Hc as [_ Hc]. apply andb_true_iff in Hd as [_ Hd].
    f_equal. eauto.
Qed.

(** The first run is the stretch of letters at the front; the later runs
    are the tokens that start after some other character. *)
Lemma alpha_runs_spec (s : string) :
  exists r rs,
    alpha_runs s = r :: rs /\
    all_alpha r = true /\
    (exists post : string, s = (r ++ post)%string /\ alpha_at_start post = false) /\
    (forall t, t ∈ rs <->
       exists pre post : string,
         s = (pre ++ t ++ post)%string /\ pre <> "" /\
         all_alpha t = true /\ alpha_at_end pre = false /\
         alpha_at_start post = false).
Proof.
  induction s as [|c s (r & rs & Hruns & Hr & (post & Hs & Hpost) & Hrs)].
  - exists "", []. split; [reflexivity|]. split; [reflexivity|]. split.
    + by exists "".
    + intros t. split; [by rewrite elem_of_nil|].
      intros (pre & post & Heq & Hpre & _). by destruct pre.
  - cbn [alpha_runs]. rewrite Hruns. destruct (Text.is_alpha c) eqn:Hc.
    + exists (String c r), rs. split; [reflexivity|].
      split; [simpl; by rewrite Hc|]. split.
      * exists post. by rewrite app_cons_str, <- Hs.
      * intros t. rewrite Hrs. split.
        -- intros (pre & post' & -> & Hpre & Ht & Hend & Hstart).
           exists (String c pre), post'. rewrite app_cons_str.
           split; [reflexivity|]. split; [discriminate|].
           by rewrite alpha_at_end_cons.
        -- intros (pre & post' & Heq & Hpre & Ht & Hend & Hstart).
           destruct pre as [|d pre]; [done|]. rewrite app_cons_str in Heq.
           injection Heq as <- ->.
           assert (Hne : pre <> "") by (intros ->; simpl in Hend; congruence).
           exists pre, post'. rewrite alpha_at_end_cons in Hend by done. auto.
    + exists "", (r :: rs). split; [reflexivity|]. split; [reflexivity|]. split.
      * exists (String c s). split; [reflexivity | exact Hc].
      * intros t. rewrite elem_of_cons, Hrs. split.
        -- intros [->|(pre & post' & -> & Hpre & Ht & Hend & Hstart)].
           ++ exists (String c ""), post. rewrite app_cons_str, app_nil_l_str, <- Hs.
              split; [reflexivity|]. split; [discriminate|]. simpl. auto.
           ++ exists (String c pre), post'. rewrite app_cons_str.
              split; [reflexivity|]. split; [discriminate|].
              by rewrite alpha_at_end_cons.
        -- intros (pre & post' & Heq & Hpre & Ht & Hend & Hstart).
           destruct pre as [|d pre]; [done|]. rewrite app_cons_str in Heq.
           injection Heq as <- Heq.
           destruct pre as [|d' pre].
           ++ left. rewrite app_nil_l_str in Heq. subst s.
              symmetry. by eapply alpha_prefix_unique.
           ++ right. exists (String d' pre), post'.
              rewrite alpha_at_end_cons in Hend by done.
              split; [exact Heq|]. split; [discriminate|]. auto.
Qed.

(** The runs of letters are the alphabetic tokens. *)
Lemma elem_of_alpha_runs (t s : string) :
  t ∈ alpha_runs s <-> alpha_token t s.
Proof.
  destruct (alpha_runs_spec s) as (r & rs & -> & Hr & (post & Hs & Hpost) & Hrs).
  rewrite elem_of_cons, Hrs. unfold alpha_token. split.
  - intros [->|(pre & post' & Heq & _ & Ht & Hend & Hstart)].
    + exists "", post. rewrite app_nil_l_str. auto.
    + exists pre, post'. auto.
  - intros (pre & post' & Heq & Ht & Hend & Hstart).
    destruct pre as [|d pre].
    + left. rewrite app_nil_l_str in Heq. rewrite Heq in Hs.
      by eapply alpha_prefix_unique.
    + right. exists (String d pre), post'. split; [exact Heq|].
      split; [discriminate|]. auto.
Qed.

(** What [findall_alpha3] returns: the alphabetic tokens of at least three
    letters. *)
Lemma elem_of_findall_alpha3 (t s : string) :
  t ∈ findall_alpha3 s <-> alpha_token t s /\ (3 <= String.length t)%nat.
Proof.
  unfold findall_alpha3.
  rewrite list_elem_of_In, filter_In, <- list_elem_of_In, elem_of_alpha_runs.
  by rewrite Nat.leb_le.
Qed.

Lemma elem_of_keywords (t : string) (text : string) :
  t ∈ _keywords text <->
  t ∈ findall_alpha3 (Text.lower text) /\ t ∉ STOPWORDS.
Proof.
  unfold _keywords. cbv zeta.
  rewrite !list_elem_of_In, filter_In, bool_decide_eq_true.
  reflexivity.
Qed.

(** The set the code builds from the filtered token list is the set of
    tokens minus the stopwords. *)
Lemma keywords_set (query : string) :
  list_to_set (_keywords query) = content_terms query.
Proof.
  unfold content_terms. apply set_eq. intros t.
  rewrite elem_of_list_to_set, elem_of_keywords, elem_of_difference,
    elem_of_list_to_set.
  reflexivity.
Qed.

Lemma query_supported_by_context_unfold (query : string) (passages : list Passage) :
  query_supported_by_context query passages =
  if decide (content_terms query = ∅) then false
  else bool_decide (required_hits query <= hit_count query passages)%nat.
Proof.
  unfold query_supported_by_context, required_hits, hit_count, context_text.
  cbv zeta. rewrite keywords_set. reflexivity.
Qed.

(** C4. [query_supported_by_context] works on the set of distinct
    lower-cased alphabetic tokens of at least three letters of the query,
    minus the stopwords (a term is in the set exactly when it is such a
    token and no stopword). It returns false when that set is empty;
    otherwise it returns true exactly when the number of those terms
    occurring as substrings of the lower-cased joined chunk texts reaches
    the required count, 1 for at most four terms and 2 for more. *)
Theorem query_supported_by_context_spec (query : string) (passages : list Passage) :
  (forall t, t ∈ content_terms query <->
     alpha_token t (Text.lower query) /\ (3 <= String.length t)%nat /\
     t ∉ STOPWORDS) /\
  (content_terms query = ∅ ->
     query_supported_by_context query passages = false) /\
  (content_terms query <> ∅ ->
     (query_supported_by_context query passages = true <->
      ((if decide (size (content_terms query) <= 4)%nat then 1 else 2)
         <= hit_count query passages)%nat)).
Proof.
  rewrite query_supported_by_context_unfold. unfold required_hits.
  split; [|split; intros Hterms].
  - intros t. unfold content_terms.
    rewrite elem_of_difference, elem_of_list_to_set, elem_of_findall_alpha3.
    tauto.
  - rewrite decide_True by assumption. reflexivity.
  - rewrite decide_False by assumption. apply bool_decide_eq_true.
Qed.

(** A query made of stopwords and short words has no content term. *)
Lemma no_content_terms_unsupported (query : string) (passages : list Passage) :
  _keywords query = [] -> query_supported_by_context query passages = false.
Proof.
  intros Hk. rewrite query_supported_by_context_unfold, <- keywords_set, Hk.
  reflexivity.
Qed.

End SupportVerifier.

(** Scenario 5 of the specification: the terms are "bad" and "faith", one
    hit is required, and "faith" occurs in the passages. *)
Lemma query_supported_by_context_spec_witness :
  SupportSpec.content_terms "What is bad faith?" = {[ "bad"; "faith" ]} /\
  Rag.query_supported_by_context "What is bad faith?"
    [Rag.mkPassage (Float.Num (1 # 2)) "Faith is not a refuge." "a.pdf" 3;
     Rag.mkPassage (Float.Num (1 # 3)) "Freedom is a burden." "a.pdf" 4] = true /\
  Rag.query_supported_by_context "What is it?"
    [Rag.mkPassage (Float.Num (1 # 2)) "Faith is not a refuge." "a.pdf" 3] = false.
Proof.
  split; [vm_compute; reflexivity|]. split.
  - apply (proj2 (proj2 (query_supported_by_context_spec _ _))).
    + intros Hempty. apply (f_equal size) in Hempty. vm_compute in Hempty.
      discriminate.
    + vm_compute. repeat constructor.
  - apply (proj1 (proj2 (query_supported_by_context_spec _ _))).
    vm_compute. reflexivity.
Defined.

(** ** Retriever *)

Section Retriever.
Import Rag.

(** Python's [<] on floats decides the order, and fails on every pair
    out of the order: a NaN on either side, or the right side at most
    the left one. *)
Lemma float_ltb_lt (x y : Float.float) : Float.ltb x y = true <-> Float.lt x y.
Proof.
  destruct x as [a| | |], y as [b| | |]; cbn; try (split; [done|done]).
  rewrite negb_true_iff, <- not_true_iff_false, Qle_bool_iff.
  split; [apply Qnot_le_lt | apply Qlt_not_le].
Qed.

Lemma float_ltb_ge (x y : Float.float) :
  Float.ltb x y = false <-> x = Float.NaN \/ y = Float.NaN \/ Float.le y x.
Proof.
  destruct x as [a| | |], y as [b| | |]; cbn;
    try (split; [intros _; tauto | done]);
    try (split; [done | intros [?|[?|?]]; done]).
  rewrite negb_false_iff, Qle_bool_iff.
  split; [tauto | intros [?|[?|?]]; done].
Qed.

Lemma float_le_not_nan (x y : Float.float) :
  Float.le x y -> x <> Float.NaN /\ y <> Float.NaN.
Proof. destruct x, y; cbn; intros H; done. Qed.

Lemma float_le_trans (x y z : Float.float) :
  Float.le x y -> Float.le y z -> Float.le x z.
Proof.
  destruct x as [a| | |], y as [b| | |], z as [c| | |]; cbn; try tauto.
  apply Qle_trans.
Qed.


Lemma float_lt_not_le (x y : Float.float) : Float.lt x y -> ~ Float.le y x.
Proof.
  destruct x as [a| | |], y as [b| | |]; cbn; try tauto.
  apply Qlt_not_le.
Qed.

(** The score test of the loop and of the score gate, against the
    threshold. *)
Lemma below_floor_true (s : Float.float) :
  Float.ltb s MIN_SCORE = true <-> Float.lt s MIN_SCORE.
Proof. apply float_ltb_lt. Qed.

Lemma below_floor_false (s : Float.float) :
  Float.ltb s MIN_SCORE = false <-> s = Float.NaN \/ Float.le MIN_SCORE s.
Proof.
  rewrite float_ltb_ge. unfold MIN_SCORE.
  split; [intros [?|[?|?]]; [by left | done | by right] | tauto].
Qed.

(** The loop keeps a neighbour only past the score test, which a score
    of at least the threshold passes, and a NaN. *)
Lemma rank_scores (chunks : list Chunk) (neighbours : list (Float.float * Z)) (results : list Passage) :
  rank chunks neighbours = Ok results ->
  Forall (fun p => score p = Float.NaN \/ Float.le MIN_SCORE (score p)) results.
Proof.
  revert results. induction neighbours as [|[s idx] rest IH]; intros results; simpl.
  - intros [= <-]. constructor.
  - destruct (idx =? -1)%Z; [apply IH|].
    destruct (Float.ltb s MIN_SCORE) eqn:Hs; [apply IH|].
    destruct (py_getitem chunks idx) as [item|e]; [|discriminate].
    destruct (rank chunks rest) as [kept|e]; [|discriminate].
    intros [= <-]. constructor.
    + simpl. by apply below_floor_false.
    + by apply IH.
Qed.

(** Every kept passage carries the score and the index of a neighbour of
    the raw search, and the text of the record at that index. *)
Lemma rank_from_neighbours (chunks : list Chunk) (neighbours : list (Float.float * Z)) (results : list Passage) :
  rank chunks neighbours = Ok results ->
  Forall (fun p => exists idx item,
              (score p, idx) ∈ neighbours /\ idx <> (-1)%Z /\
              py_getitem chunks idx = Ok item /\
              chunk p = c_chunk item /\ source p = c_source item /\
              page p = c_page item) results.
Proof.
  revert results. induction neighbours as [|[s idx] rest IH]; intros results; simpl.
  - intros [= <-]. constructor.
  - destruct (idx =? -1)%Z eqn:Hidx.
    { intros H. eapply Forall_impl; [apply IH, H|].
      intros p (i & it & Hin & Hrest). exists i, it. split; [by right|done]. }
    destruct (Float.ltb s MIN_SCORE).
    { intros H. eapply Forall_impl; [apply IH, H|].
      intros p (i & it & Hin & Hrest). exists i, it. split; [by right|done]. }
    destruct (py_getitem chunks idx) as [item|e] eqn:Hget; [|discriminate].
    destruct (rank chunks rest) as [kept|e]; [|discriminate].
    intros [= <-]. constructor.
    + exists idx, item. simpl. split; [by left|].
      split; [by apply Z.eqb_neq|]. auto.
    + eapply Forall_impl; [by apply IH|].
      intros p (i & it & Hin & Hrest). exists i, it. split; [by right|done].
Qed.

(** The loop returns when every neighbour that passes the two tests points
    into the passage store. *)
Lemma rank_returns (chunks : list Chunk) (neighbours : list (Float.float * Z)) :
  Forall (fun n => (-1 <= snd n < Z.of_nat (length chunks))%Z) neighbours ->
  exists results, rank chunks neighbours = Ok results.
Proof.
  induction 1 as [|[s idx] rest Hidx _ IH]; simpl; [by eexists|].
  destruct IH as [kept Hkept]. rewrite Hkept.
  destruct (idx =? -1)%Z eqn:Hm; [by eexists|].
  destruct (Float.ltb s MIN_SCORE); [by eexists|].
  apply Z.eqb_neq in Hm. simpl in Hidx.
  unfold py_getitem.
  destruct (idx <? 0)%Z eqn:Hneg; [apply Z.ltb_lt in Hneg; lia|].
  apply Z.ltb_ge in Hneg.
  replace ((0 <=? idx)%Z && (idx <? Z.of_nat (length chunks))%Z) with true
    by (symmetry; apply andb_true_iff; split; [apply Z.leb_le | apply Z.ltb_lt]; lia).
  destruct (chunks !! Z.to_nat idx) as [item|] eqn:Hlook; [by eexists|].
  apply lookup_ge_None in Hlook. lia.
Qed.

(** A row of missing neighbours leaves the ranked list empty. *)
Lemma rank_all_missing (chunks : list Chunk) (scores0 : list Float.float) (ids0 : list Z) :
  Forall (fun idx => idx = (-1)%Z) ids0 ->
  rank chunks (combine scores0 ids0) = Ok [].
Proof.
  intros Hids. revert scores0.
  induction Hids as [|idx ids -> _ IH]; intros [|s scores0]; simpl; auto.
Qed.

Lemma elem_of_combine_fst {A B : Type} (xs : list A) (ys : list B) (x : A) (y : B) :
  (x, y) ∈ combine xs ys -> x ∈ xs.
Proof.
  revert ys. induction xs as [|x' xs IH]; intros [|y' ys]; cbn;
    try (intros H; by apply elem_of_nil in H).
  intros [[= -> ->]|Hin]%elem_of_cons; [by left | right; by eapply IH].
Qed.

Variable index_search : string -> nat -> list Float.float * list Z.
Variable chunks : list Chunk.

Lemma retrieve_unfold (query : string) (scores0 : list Float.float) (ids0 : list Z) :
  index_search query TOP_K = (scores0, ids0) ->
  retrieve index_search chunks query =
  match rank chunks (combine scores0 ids0) with
  | Raise e => Raise e
  | Ok results => Ok (results, match scores0 with s :: _ => s | [] => Float.Num 0 end)
  end.
Proof. intros Hsearch. unfold retrieve. rewrite Hsearch. reflexivity. Qed.

(** [retrieve] returns when the identifiers of the search are -1 or
    positions of the passage store. *)
Lemma retrieve_returns (query : string) :
  Forall (fun idx => (-1 <= idx < Z.of_nat (length chunks))%Z)
         (snd (index_search query TOP_K)) ->
  exists passages best, retrieve index_search chunks query = Ok (passages, best).
Proof.
  destruct (index_search query TOP_K) as [scores0 ids0] eqn:Hsearch. simpl.
  intros Hids. rewrite (retrieve_unfold _ _ _ Hsearch).
  destruct (rank_returns chunks (combine scores0 ids0)) as [results Hr].
  - clear Hsearch. revert scores0.
    induction Hids as [|idx ids Hidx _ IH]; intros [|s scores0]; simpl;
      try constructor; auto.
  - rewrite Hr. eauto.
Qed.

(** C5. Every passage of the ranked list that [retrieve] returns has a
    similarity score that is not below the minimum-score threshold 0.25,
    for whatever query, index and passage store: the score is at least
    0.25, or it is NaN, which the test [float(score) < MIN_SCORE] lets
    through. When the score row of the search holds no NaN, every
    passage scores at least 0.25. *)
Theorem retrieve_scores_meet_floor (query : string) (passages : list Passage) (best : Float.float) :
  retrieve index_search chunks query = Ok (passages, best) ->
  (exists m, MIN_SCORE = Float.Num m /\ (m == 0.25)%Q) /\
  Forall (fun p => score p = Float.NaN \/ Float.le MIN_SCORE (score p)) passages /\
  Forall (fun p => ~ Float.lt (score p) MIN_SCORE) passages /\
  (Forall (fun s => s <> Float.NaN) (fst (index_search query TOP_K)) ->
   Forall (fun p => Float.le MIN_SCORE (score p)) passages).
Proof.
  destruct (index_search query TOP_K) as [scores0 ids0] eqn:Hsearch.
  rewrite (retrieve_unfold _ _ _ Hsearch).
  destruct (rank chunks (combine scores0 ids0)) as [results|e] eqn:Hrank;
    [|discriminate].
  intros [= <- _]. pose proof (rank_scores _ _ _ Hrank) as Hfloor.
  split; [by exists (1 # 4)|]. split; [exact Hfloor|]. split.
  - eapply Forall_impl; [exact Hfloor|]. intros p [Hnan|Hle] Hlt; cbn beta in *.
    + rewrite Hnan in Hlt. exact Hlt.
    + by apply float_lt_not_le in Hlt.
  - cbn [fst]. intros Hrow. rewrite Forall_forall in Hrow.
    pose proof (rank_from_neighbours _ _ _ Hrank) as Hfrom.
    rewrite Forall_forall in Hfloor, Hfrom. apply Forall_forall. intros p Hp.
    destruct (Hfloor p Hp) as [Hnan|Hle]; [|exact Hle].
    destruct (Hfrom p Hp) as (idx & item & Hin & _).
    apply elem_of_combine_fst in Hin. by apply Hrow in Hin.
Qed.


(** When the search marks every neighbour as missing, the ranked list is
    empty as well, and the best score is still the first raw score. *)
Lemma retrieve_all_missing (query : string) (scores0 : list Float.float) (ids0 : list Z) :
  index_search query TOP_K = (scores0, ids0) ->
  Forall (fun idx => idx = (-1)%Z) ids0 ->
  retrieve index_search chunks query =
  Ok ([], match scores0 with s :: _ => s | [] => Float.Num 0 end).
Proof.
  intros Hsearch Hids. rewrite (retrieve_unfold _ _ _ Hsearch).
  by rewrite (rank_all_missing _ _ _ Hids).
Qed.

End Retriever.

(** A row whose closest neighbour is weak, whose second score is NaN and
    whose third neighbour is strong: the ranked list holds the last two. *)
Lemma retrieve_scores_meet_floor_witness :
  Rag.retrieve (fun _ _ => ([Float.Num (1 # 10); Float.NaN; Float.Num (1 # 2)],
                            [0; 0; 1]%Z)) Scenario.corpus "q"
  = Rag.Ok ([Scenario.nan_passage;
             Rag.mkPassage (Float.Num (1 # 2)) "Anguish is the recognition of freedom."
               "sartre.pdf" 13],
            Float.Num (1 # 10)) /\
  Forall (fun p => Rag.score p = Float.NaN \/ Float.le Rag.MIN_SCORE (Rag.score p))
         [Scenario.nan_passage;
          Rag.mkPassage (Float.Num (1 # 2)) "Anguish is the recognition of freedom."
            "sartre.pdf" 13].
Proof.
  split; [vm_compute; reflexivity|].
  apply (retrieve_scores_meet_floor
           (fun _ _ => ([Float.Num (1 # 10); Float.NaN; Float.Num (1 # 2)],
                        [0; 0; 1]%Z)) Scenario.corpus "q" _ (Float.Num (1 # 10))).
  vm_compute. reflexivity.
Defined.

(** The claim as stated fails on a row that holds a NaN: the passage is
    kept, and its score is not at least the threshold. *)
Lemma retrieve_keeps_nan_score :
  exists passages best,
    Rag.retrieve Scenario.nan_search Scenario.corpus Scenario.sartre_query
    = Rag.Ok (passages, best) /\
    ~ Forall (fun p => Float.le Rag.MIN_SCORE (Rag.score p)) passages.
Proof.
  exists [Scenario.nan_passage], Float.NaN. split; [vm_compute; reflexivity|].
  intros Hall. apply Forall_cons in Hall as [Hle _]. exact Hle.
Qed.



(** ** Context assembler *)

Section ContextAssembler.
Import Rag.

Lemma string_length_app (s1 s2 : string) :
  String.length (s1 ++ s2) = (String.length s1 + String.length s2)%nat.
Proof. induction s1 as [|c s1 IH]; simpl; [reflexivity|]. by rewrite IH. Qed.

Lemma join_length (sep : string) (parts : list string) :
  String.length (Text.join sep parts) =
  (Text.total_length parts + String.length sep * (length parts - 1))%nat.
Proof.
  induction parts as [|p [|p' rest] IH]; simpl in *.
  - lia.
  - lia.
  - rewrite !string_length_app, IH. lia.
Qed.

(** The loop never keeps more snippet characters than the budget. *)
Lemma context_parts_within_budget (passages : list Passage) (total : nat) :
  (total <= MAX_CONTEXT_CHARS)%nat ->
  (total + Text.total_length (context_parts passages total) <= MAX_CONTEXT_CHARS)%nat.
Proof.
  revert total. induction passages as [|p rest IH]; intros total Htotal;
    cbn [context_parts].
  - unfold Text.total_length. cbn [foldr]. lia.
  - destruct (MAX_CONTEXT_CHARS <? total + String.length (snippet p))%nat eqn:Hover.
    + unfold Text.total_length. cbn [foldr]. lia.
    + apply Nat.ltb_ge in Hover.
      specialize (IH (total + String.length (snippet p))%nat Hover).
      unfold Text.total_length in *. cbn [foldr]. lia.
Qed.

Lemma context_parts_count (passages : list Passage) (total : nat) :
  (length (context_parts passages total) <= length passages)%nat.
Proof.
  revert total. induction passages as [|p rest IH]; intros total;
    cbn [context_parts length]; [lia|].
  destruct (MAX_CONTEXT_CHARS <? total + String.length (snippet p))%nat;
    cbn [length].
  - lia.
  - specialize (IH (total + String.length (snippet p))%nat). lia.
Qed.

(** What does hold of the returned text: the snippets stay within the
    budget, and each blank-line separator adds two characters to it. *)
Lemma build_context_length (passages : list Passage) :
  (String.length (build_context passages) <=
   MAX_CONTEXT_CHARS + 2 * (length passages - 1))%nat.
Proof.
  unfold build_context. rewrite join_length.
  pose proof (context_parts_within_budget passages 0 ltac:(unfold MAX_CONTEXT_CHARS; lia)).
  pose proof (context_parts_count passages 0).
  change (String.length (Text.newline ++ Text.newline)) with 2%nat. lia.
Qed.

(** A context of a single snippet is within the budget. *)
Lemma build_context_single (p : Passage) :
  (String.length (build_context [p]) <= MAX_CONTEXT_CHARS)%nat.
Proof.
  pose proof (build_context_length [p]) as H. cbn [length] in H. lia.
Qed.

(** C7, evaluated on four passages whose snippets have 750 characters
    each: the four snippets fill the budget of 3000 exactly, all four are
    kept, and the three blank-line separators bring the returned text to
    3006 characters, which is more than [MAX_CONTEXT_CHARS]. *)
Theorem build_context_exceeds_budget :
  Forall (fun p => String.length (snippet p) = 750%nat) Scenario.full_passages /\
  String.length (build_context Scenario.full_passages) = 3006%nat /\
  (MAX_CONTEXT_CHARS < String.length (build_context Scenario.full_passages))%nat.
Proof.
  assert (Hlen : String.length (build_context Scenario.full_passages) = 3006%nat)
    by (vm_compute; reflexivity).
  split; [|split].
  - repeat constructor; vm_compute; reflexivity.
  - exact Hlen.
  - rewrite Hlen. unfold MAX_CONTEXT_CHARS. lia.
Qed.

End ContextAssembler.

(** ** The Ask handler *)

(** Membership of an event in an explicit trace. *)
Ltac event_solver :=
  unfold App.upto_generate, App.upto_support, App.upto_scores, App.upto_retrieve;
  rewrite ?elem_of_app, ?elem_of_cons, ?elem_of_nil;
  intuition (try discriminate; try congruence).

Section Pipeline.
Import Rag App Gates.

Variable index_search : string -> nat -> list Float.float * list Z.
Variable chunks : list Chunk.
Variable OLLAMA_URL : string.
Variable OLLAMA_MODEL : string.
Variable requests_post : string -> Payload -> nat -> result Response.
Variable raise_for_status : Response -> option Exn.

Local Abbreviation retrieve := (Rag.retrieve index_search chunks).
Local Abbreviation generate_answer :=
  (Rag.generate_answer OLLAMA_URL OLLAMA_MODEL requests_post raise_for_status).
Local Abbreviation pipeline :=
  (App.pipeline index_search chunks OLLAMA_URL OLLAMA_MODEL requests_post
                raise_for_status).
Local Abbreviation ask :=
  (App.ask index_search chunks OLLAMA_URL OLLAMA_MODEL requests_post
           raise_for_status).

(** The run of the pipeline, stage by stage. *)
Lemma pipeline_run (query : string) :
  pipeline query =
  if should_refuse_query query None then
    ([Call_should_refuse_query query None; St_error REFUSAL_TEXT], Stopped)
  else
    match retrieve query with
    | Raise e => (upto_retrieve query, Failed e)
    | Ok (passages, best) =>
        if Float.ltb best MIN_SCORE || (length passages =? 0)%nat then
          (upto_scores query best ++ [St_error REFUSAL_TEXT], Stopped)
        else if should_refuse_query query (Some passages) then
          (upto_support query passages best ++ [St_error REFUSAL_TEXT], Stopped)
        else
          match generate_answer query (build_context passages) with
          | Raise e => (upto_generate query passages best, Failed e)
          | Ok answer =>
              if String.eqb (Text.strip answer) (Text.strip REFUSAL_TEXT) then
                (upto_generate query passages best ++ [St_error REFUSAL_TEXT],
                 Stopped)
              else
                (upto_generate query passages best ++
                 [St_answer answer; St_sources passages;
                  St_context (build_context passages)], Done tt)
          end
    end.
Proof.
  unfold App.pipeline, upto_generate, upto_support, upto_scores, upto_retrieve.
  unfold mbind, M_bind, mret, M_ret, call, when, emit, st_error, st_stop, refuse.
  destruct (should_refuse_query query None); [reflexivity|].
  destruct (retrieve query) as [[passages best]|e]; [|reflexivity].
  cbv beta iota.
  destruct (Float.ltb best MIN_SCORE || (length passages =? 0)%nat); [reflexivity|].
  destruct (should_refuse_query query (Some passages)); [reflexivity|].
  cbv beta iota.
  destruct (generate_answer query (build_context passages)) as [answer|e];
    [|reflexivity].
  cbv beta iota.
  destruct (String.eqb (Text.strip answer) (Text.strip REFUSAL_TEXT)); reflexivity.
Qed.

Lemma score_gate_decides (passages : list Passage) (best : Float.float) :
  Float.ltb best MIN_SCORE || (length passages =? 0)%nat = false <->
  score_gate_passes passages best.
Proof.
  unfold score_gate_passes.
  rewrite orb_false_iff, below_floor_false, Nat.eqb_neq.
  destruct passages; simpl; split; intros [? ?]; split; auto; congruence.
Qed.

Lemma support_gate_decides (query : string) (passages : list Passage) :
  should_refuse_query query (Some passages) = false <->
  topic_gate_passes query /\ support_gate_passes query passages.
Proof.
  unfold topic_gate_passes, support_gate_passes.
  rewrite !should_refuse_query_value.
  destruct (has_banned_terms query), (in_allowed_domain query),
    (query_supported_by_context query passages); simpl; intuition congruence.
Qed.

Lemma self_refusal_decides (answer : string) :
  String.eqb (Text.strip answer) (Text.strip REFUSAL_TEXT) = false <->
  self_refusal_gate_passes answer.
Proof. apply String.eqb_neq. Qed.

Lemma refused_after (prefix : list Event) :
  (forall a, St_answer a ∉ prefix) ->
  refused (prefix ++ [St_error REFUSAL_TEXT], Stopped).
Proof.
  intros Hprefix. unfold refused, ends, trace. simpl.
  split; [reflexivity|]. split; [apply last_snoc|].
  intros a. rewrite elem_of_app, list_elem_of_singleton.
  intros [Hin|Heq]; [by eapply Hprefix | discriminate].
Qed.

Lemma no_answer_upto_generate (query : string) (passages : list Passage) (best : Float.float) :
  forall a, St_answer a ∉ upto_generate query passages best.
Proof.
  intros a. event_solver.
Qed.

Lemma no_error_upto_generate (query : string) (passages : list Passage) (best : Float.float) :
  forall msg, St_error msg ∉ upto_generate query passages best.
Proof.
  intros a. event_solver.
Qed.

(** A run is refused as soon as one of the four gates fails. *)
Lemma pipeline_refused_topic (query : string) :
  should_refuse_query query None = true -> refused (pipeline query).
Proof.
  intros Hgate. rewrite pipeline_run, Hgate.
  apply (refused_after [Call_should_refuse_query query None]).
  intros a. rewrite list_elem_of_singleton. discriminate.
Qed.

Lemma pipeline_refused_later (query : string) (passages : list Passage) (best : Float.float) :
  retrieve query = Ok (passages, best) ->
  ~ score_gate_passes passages best \/
  ~ support_gate_passes query passages \/
  (exists answer, generate_answer query (build_context passages) = Ok answer /\
                  ~ self_refusal_gate_passes answer) ->
  refused (pipeline query).
Proof.
  intros Hret Hfail.
  destruct (should_refuse_query query None) eqn:Htopic;
    [by apply pipeline_refused_topic|].
  rewrite pipeline_run, Htopic, Hret.
  destruct (Float.ltb best MIN_SCORE || (length passages =? 0)%nat) eqn:Hscore.
  { apply refused_after. intros a. event_solver. }
  apply score_gate_decides in Hscore.
  destruct (should_refuse_query query (Some passages)) eqn:Hsupport.
  { apply refused_after. intros a. event_solver. }
  apply support_gate_decides in Hsupport as [_ Hsupport].
  destruct Hfail as [Hfail|[Hfail|(answer & Hgen & Hfail)]]; [done|done|].
  rewrite Hgen.
  destruct (String.eqb (Text.strip answer) (Text.strip REFUSAL_TEXT)) eqn:Hself.
  - apply refused_after, no_answer_upto_generate.
  - by apply self_refusal_decides in Hself.
Qed.

(** A run whose four gates pass surfaces the answer of the generator. *)
Lemma pipeline_answers (query : string) (passages : list Passage) (best : Float.float)
      (answer : string) :
  topic_gate_passes query ->
  retrieve query = Ok (passages, best) ->
  score_gate_passes passages best ->
  support_gate_passes query passages ->
  generate_answer query (build_context passages) = Ok answer ->
  self_refusal_gate_passes answer ->
  pipeline query =
  (upto_generate query passages best ++
   [St_answer answer; St_sources passages; St_context (build_context passages)],
   Done tt) /\
  answered (pipeline query) answer.
Proof.
  intros Htopic Hret Hscore Hsupport Hgen Hself.
  assert (Hrun : pipeline query =
    (upto_generate query passages best ++
     [St_answer answer; St_sources passages; St_context (build_context passages)],
     Done tt)).
  { rewrite pipeline_run, Htopic, Hret.
    apply score_gate_decides in Hscore. rewrite Hscore.
    rewrite (proj2 (support_gate_decides query passages) (conj Htopic Hsupport)).
    rewrite Hgen. apply self_refusal_decides in Hself. by rewrite Hself. }
  split; [exact Hrun|]. rewrite Hrun. unfold answered, ends, trace.
  cbn [fst snd].
  split; [reflexivity|]. split.
  - rewrite elem_of_app. right. by left.
  - intros msg. event_solver.
Qed.

(** C1. The pipeline reaches the answered state only if all four gates
    pass: the topic gate does not refuse the query, the best score is
    not below the threshold (it is at least the threshold, or it is NaN,
    on which the test [best < MIN_SCORE] is False) and the ranked list
    is not empty, the support verifier accepts the query against the
    retrieved passages, and the stripped output of the generator differs
    from the stripped canonical refusal. The failure of any one gate
    forces the canonical refusal. *)
Theorem answered_only_through_four_gates (query : string) :
  (forall answer, answered (pipeline query) answer ->
     topic_gate_passes query /\
     exists passages best,
       retrieve query = Ok (passages, best) /\
       score_gate_passes passages best /\
       support_gate_passes query passages /\
       generate_answer query (build_context passages) = Ok answer /\
       self_refusal_gate_passes answer) /\
  (~ topic_gate_passes query -> refused (pipeline query)) /\
  (forall passages best, retrieve query = Ok (passages, best) ->
     ~ score_gate_passes passages best -> refused (pipeline query)) /\
  (forall passages best, retrieve query = Ok (passages, best) ->
     ~ support_gate_passes query passages -> refused (pipeline query)) /\
  (forall passages best answer, retrieve query = Ok (passages, best) ->
     generate_answer query (build_context passages) = Ok answer ->
     ~ self_refusal_gate_passes answer -> refused (pipeline query)).
Proof.
  split; [|split; [|split; [|split]]].
  - intros answer (Hend & Hshown & _). revert Hend Hshown.
    unfold ends, trace. rewrite pipeline_run.
    destruct (should_refuse_query query None) eqn:Htopic; [discriminate|].
    destruct (retrieve query) as [[passages best]|e] eqn:Hret; [|discriminate].
    destruct (Float.ltb best MIN_SCORE || (length passages =? 0)%nat) eqn:Hscore;
      [discriminate|].
    destruct (should_refuse_query query (Some passages)) eqn:Hsupport;
      [discriminate|].
    destruct (generate_answer query (build_context passages)) as [out|e] eqn:Hgen;
      [|discriminate].
    destruct (String.eqb (Text.strip out) (Text.strip REFUSAL_TEXT)) eqn:Hself;
      [discriminate|].
    cbn [fst snd]. intros _ Hshown.
    assert (answer = out) as ->.
    { apply elem_of_app in Hshown as [Hin|Hin].
      - by apply no_answer_upto_generate in Hin.
      - rewrite !elem_of_cons, elem_of_nil in Hin.
        destruct Hin as [[= ->]|[[=]|[[=]|[]]]]. reflexivity. }
    split; [exact Htopic|]. exists passages, best.
    split; [reflexivity|].
    split; [by apply score_gate_decides|].
    split; [by apply support_gate_decides in Hsupport as [_ ?]|].
    split; [exact Hgen|]. by apply self_refusal_decides.
  - intros Htopic. apply pipeline_refused_topic.
    unfold topic_gate_passes in Htopic.
    by destruct (should_refuse_query query None).
  - intros passages best Hret Hfail. eapply pipeline_refused_later; eauto.
  - intros passages best Hret Hfail. eapply pipeline_refused_later; eauto.
  - intros passages best answer Hret Hgen Hfail.
    eapply pipeline_refused_later; eauto.
Qed.

(** C8. For a query that passes the topic gate, when [retrieve] returns a
    best score below the threshold or an empty ranked list, the run is
    refused at the score check: after the topic gate and the retrieval it
    shows the scores and the canonical refusal and stops; the support
    verifier is not invoked on the passages and the generator is not
    called. *)
Theorem weak_retrieval_refused_at_score_check
    (query : string) (passages : list Passage) (best : Float.float) :
  topic_gate_passes query ->
  retrieve query = Ok (passages, best) ->
  Float.lt best MIN_SCORE \/ passages = [] ->
  pipeline query =
    ([Call_should_refuse_query query None; Call_retrieve query;
      St_write_scores best MIN_SCORE; St_error REFUSAL_TEXT], Stopped) /\
  refused (pipeline query) /\
  (forall q ps, Call_should_refuse_query q (Some ps) ∉ trace (pipeline query)) /\
  (forall q context, Call_generate_answer q context ∉ trace (pipeline query)).
Proof.
  intros Htopic Hret Hweak.
  assert (Hgate : Float.ltb best MIN_SCORE || (length passages =? 0)%nat = true).
  { apply orb_true_iff. destruct Hweak as [Hlt| ->].
    - left. by apply below_floor_true.
    - right. reflexivity. }
  assert (Hrun : pipeline query =
    ([Call_should_refuse_query query None; Call_retrieve query;
      St_write_scores best MIN_SCORE; St_error REFUSAL_TEXT], Stopped)).
  { rewrite pipeline_run, Htopic, Hret, Hgate. reflexivity. }
  split; [exact Hrun|]. split; [|rewrite Hrun; unfold trace; cbn [fst]; split].
  - eapply pipeline_refused_later; [exact Hret|]. left.
    intros Hpass. apply score_gate_decides in Hpass. congruence.
  - intros q ps. event_solver.
  - intros q context. event_solver.
Qed.

(** C9. When the call to the generation service times out, or its
    response has a status that [raise_for_status] rejects,
    [generate_answer] raises that exception and returns nothing, so not
    the refusal text either; a run that has reached the generator ends
    with the exception, shows no refusal and no answer, and is neither
    refused nor answered. *)
Theorem generator_fault_propagates (query context : string) (e : Exn) :
  service_fault requests_post raise_for_status OLLAMA_URL
    {| model := OLLAMA_MODEL; prompt := build_prompt query context;
       stream := false |} e ->
  generate_answer query context = Raise e /\
  generate_answer query context <> Ok REFUSAL_TEXT /\
  (forall passages best,
     context = build_context passages ->
     topic_gate_passes query ->
     retrieve query = Ok (passages, best) ->
     score_gate_passes passages best ->
     support_gate_passes query passages ->
     ends (pipeline query) = Failed e /\
     (forall msg, St_error msg ∉ trace (pipeline query)) /\
     (forall a, St_answer a ∉ trace (pipeline query)) /\
     ~ refused (pipeline query) /\
     (forall a, ~ answered (pipeline query) a)).
Proof.
  intros Hfault.
  assert (Hgen : generate_answer query context = Raise e).
  { unfold Rag.generate_answer. cbv zeta.
    destruct Hfault as [Hpost|(r & Hpost & Hstatus)]; rewrite Hpost;
      [reflexivity|]. by rewrite Hstatus. }
  split; [exact Hgen|]. split; [rewrite Hgen; discriminate|].
  intros passages best -> Htopic Hret Hscore Hsupport.
  assert (Hrun : pipeline query = (upto_generate query passages best, Failed e)).
  { rewrite pipeline_run, Htopic, Hret.
    apply score_gate_decides in Hscore. rewrite Hscore.
    rewrite (proj2 (support_gate_decides query passages) (conj Htopic Hsupport)).
    by rewrite Hgen. }
  rewrite Hrun. unfold refused, answered, ends, trace. cbn [fst snd].
  split; [reflexivity|].
  split; [apply no_error_upto_generate|].
  split; [apply no_answer_upto_generate|].
  split; [intros (Hstop & _); discriminate|].
  intros a (Hdone & _). discriminate.
Qed.

(** C10. The refusal sentence that [SYSTEM_RULES] tells the generator to
    emit is quoted in the prompt and is not [REFUSAL_TEXT]; so when the
    three local gates pass and the generator returns exactly that
    sentence, the self-refusal check does not fire and the sentence is
    surfaced as an answer, not as a refusal. *)
Theorem prompt_refusal_surfaced_as_answer :
  SYSTEM_RULES_REFUSAL <> REFUSAL_TEXT /\
  Text.contains (Text.dquote ++ SYSTEM_RULES_REFUSAL ++ Text.dquote) SYSTEM_RULES
    = true /\
  Text.contains REFUSAL_TEXT SYSTEM_RULES = false /\
  (forall query passages best,
     topic_gate_passes query ->
     retrieve query = Ok (passages, best) ->
     score_gate_passes passages best ->
     support_gate_passes query passages ->
     generate_answer query (build_context passages) = Ok SYSTEM_RULES_REFUSAL ->
     answered (pipeline query) SYSTEM_RULES_REFUSAL /\
     ~ refused (pipeline query)).
Proof.
  split; [vm_compute; discriminate|].
  split; [vm_compute; reflexivity|].
  split; [vm_compute; reflexivity|].
  intros query passages best Htopic Hret Hscore Hsupport Hgen.
  assert (Hself : self_refusal_gate_passes SYSTEM_RULES_REFUSAL)
    by (apply self_refusal_decides; vm_compute; reflexivity).
  destruct (pipeline_answers query passages best SYSTEM_RULES_REFUSAL)
    as [Hrun Hans]; auto.
  split; [exact Hans|].
  rewrite Hrun. intros (Hstop & _). discriminate.
Qed.

(** The handler enters the pipeline for a click with a query that is not
    blank, and does nothing otherwise. *)
Lemma ask_runs_pipeline (query : string) :
  Text.strip query <> "" -> ask true query = pipeline query.
Proof.
  intros Hq. unfold App.ask. apply String.eqb_neq in Hq. by rewrite Hq.
Qed.

Lemma ask_blank (clicked : bool) (query : string) :
  Text.strip query = "" -> ask clicked query = ([], Done tt).
Proof.
  intros Hq. unfold App.ask. rewrite Hq, andb_false_r. reflexivity.
Qed.

Lemma ask_not_clicked (query : string) : ask false query = ([], Done tt).
Proof. reflexivity. Qed.

End Pipeline.

(** ** The scenarios of the specification, run on concrete collaborators *)

Section Scenarios.
Import Rag App Gates Scenario.

(** Scenario 1: the query passes the topic gate. *)
Example scenario_1 : should_refuse_query sartre_query None = false.
Proof. vm_compute. reflexivity. Qed.

Example strong_retrieval :
  retrieve strong_search corpus sartre_query = Ok ([kept_passage], Float.Num (3 # 4)).
Proof. vm_compute. reflexivity. Qed.

Example weak_retrieval :
  retrieve weak_search corpus sartre_query = Ok ([], Float.Num (1 # 10)).
Proof. vm_compute. reflexivity. Qed.

(** Scenarios 2 and 3: refusal at the topic gate, nothing retrieved. *)
Example scenario_2 :
  pipeline strong_search corpus url llm (replies good_answer) requests_raise_for_status
           "How do I cope with anxiety using existentialism?"
  = ([Call_should_refuse_query "How do I cope with anxiety using existentialism?" None;
      St_error REFUSAL_TEXT], Stopped).
Proof. vm_compute. reflexivity. Qed.

Example scenario_3 :
  pipeline strong_search corpus url llm (replies good_answer) requests_raise_for_status
           "Compare existentialism to Buddhism"
  = ([Call_should_refuse_query "Compare existentialism to Buddhism" None;
      St_error REFUSAL_TEXT], Stopped).
Proof. vm_compute. reflexivity. Qed.

(** Scenario 4: a best score of 0.10 is refused at the score check. *)
Example scenario_4 :
  pipeline weak_search corpus url llm (replies good_answer) requests_raise_for_status sartre_query
  = ([Call_should_refuse_query sartre_query None; Call_retrieve sartre_query;
      St_write_scores (Float.Num (1 # 10)) MIN_SCORE; St_error REFUSAL_TEXT], Stopped).
Proof. vm_compute. reflexivity. Qed.

(** Scenario 6: the generator returns the canonical refusal. *)
Example scenario_6 :
  pipeline strong_search corpus url llm (replies REFUSAL_TEXT) requests_raise_for_status sartre_query
  = (upto_generate sartre_query [kept_passage] (Float.Num (3 # 4)) ++ [St_error REFUSAL_TEXT],
     Stopped).
Proof. vm_compute. reflexivity. Qed.

Example answered_run :
  pipeline strong_search corpus url llm (replies good_answer) requests_raise_for_status sartre_query
  = (upto_generate sartre_query [kept_passage] (Float.Num (3 # 4)) ++
     [St_answer good_answer; St_sources [kept_passage];
      St_context (build_context [kept_passage])], Done tt).
Proof. vm_compute. reflexivity. Qed.

(** A best score that is not a number passes the score check. *)
Example nan_retrieval :
  retrieve nan_search corpus sartre_query = Ok ([nan_passage], Float.NaN).
Proof. vm_compute. reflexivity. Qed.

Example nan_run :
  pipeline nan_search corpus url llm (replies good_answer) requests_raise_for_status sartre_query
  = (upto_generate sartre_query [nan_passage] Float.NaN ++
     [St_answer good_answer; St_sources [nan_passage];
      St_context (build_context [nan_passage])], Done tt).
Proof. vm_compute. reflexivity. Qed.

(** A blank query never enters the pipeline. *)
Example blank_query :
  ask strong_search corpus url llm (replies good_answer) requests_raise_for_status true "   "
  = ([], Done tt).
Proof. vm_compute. reflexivity. Qed.

End Scenarios.

Section Witnesses.
Import Rag App Gates Scenario.

Lemma answered_only_through_four_gates_witness :
  (topic_gate_passes sartre_query /\
   exists passages best,
     retrieve strong_search corpus sartre_query = Ok (passages, best) /\
     score_gate_passes passages best /\
     support_gate_passes sartre_query passages /\
     generate_answer url llm (replies good_answer) requests_raise_for_status
                     sartre_query (build_context passages) = Ok good_answer /\
     self_refusal_gate_passes good_answer) /\
  refused (pipeline strong_search corpus url llm (replies good_answer)
                    requests_raise_for_status "Compare existentialism to Buddhism") /\
  refused (pipeline weak_search corpus url llm (replies good_answer)
                    requests_raise_for_status sartre_query) /\
  refused (pipeline strong_search corpus url llm (replies good_answer)
                    requests_raise_for_status "What is existence for Kant?") /\
  refused (pipeline strong_search corpus url llm (replies REFUSAL_TEXT)
                    requests_raise_for_status sartre_query) /\
  refused (pipeline missing_search [] url llm (replies good_answer)
                    requests_raise_for_status sartre_query) /\
  (topic_gate_passes sartre_query /\
   exists passages best,
     retrieve nan_search corpus sartre_query = Ok (passages, best) /\
     score_gate_passes passages best /\
     support_gate_passes sartre_query passages /\
     generate_answer url llm (replies good_answer) requests_raise_for_status
                     sartre_query (build_context passages) = Ok good_answer /\
     self_refusal_gate_passes good_answer).
Proof.
  split; [|split; [|split; [|split; [|split; [|split]]]]].
  - apply (proj1 (answered_only_through_four_gates strong_search corpus url llm
                    (replies good_answer) requests_raise_for_status sartre_query)).
    rewrite answered_run. unfold answered, ends, trace. cbn [fst snd].
    split; [reflexivity|]. split; [|intros msg]; event_solver.
  - apply (proj1 (proj2 (answered_only_through_four_gates strong_search corpus
                    url llm (replies good_answer) requests_raise_for_status
                    "Compare existentialism to Buddhism"))).
    unfold topic_gate_passes. vm_compute. discriminate.
  - apply (proj1 (proj2 (proj2 (answered_only_through_four_gates weak_search corpus
                    url llm (replies good_answer) requests_raise_for_status
                    sartre_query))) [] (Float.Num (1 # 10))).
    + vm_compute. reflexivity.
    + intros [_ Hne]. by apply Hne.
  - apply (proj1 (proj2 (proj2 (proj2 (answered_only_through_four_gates
                    strong_search corpus url llm (replies good_answer)
                    requests_raise_for_status "What is existence for Kant?"))))
             [kept_passage] (Float.Num (3 # 4))).
    + vm_compute. reflexivity.
    + unfold support_gate_passes. vm_compute. discriminate.
  - apply (proj2 (proj2 (proj2 (proj2 (answered_only_through_four_gates
                    strong_search corpus url llm (replies REFUSAL_TEXT)
                    requests_raise_for_status sartre_query))))
             [kept_passage] (Float.Num (3 # 4)) REFUSAL_TEXT).
    + vm_compute. reflexivity.
    + vm_compute. reflexivity.
    + intros Hpass. apply Hpass. reflexivity.
  - apply (proj1 (proj2 (proj2 (answered_only_through_four_gates missing_search []
                    url llm (replies good_answer) requests_raise_for_status
                    sartre_query))) [] Float.lowest_float32).
    + vm_compute. reflexivity.
    + intros [_ Hne]. by apply Hne.
  - apply (proj1 (answered_only_through_four_gates nan_search corpus url llm
                    (replies good_answer) requests_raise_for_status sartre_query)).
    rewrite nan_run. unfold answered, ends, trace. cbn [fst snd].
    split; [reflexivity|]. split; [|intros msg]; event_solver.
Defined.

(** The claim as stated fails on a best score that is not a number: the
    run is answered, and the best score is not at least the threshold. *)
Lemma answered_with_nan_best_score :
  exists passages best answer,
    retrieve nan_search corpus sartre_query = Ok (passages, best) /\
    answered (pipeline nan_search corpus url llm (replies good_answer)
                       requests_raise_for_status sartre_query) answer /\
    ~ Float.le MIN_SCORE best.
Proof.
  exists [nan_passage], Float.NaN, good_answer.
  split; [vm_compute; reflexivity|]. split; [|intros Hle; exact Hle].
  rewrite nan_run. unfold answered, ends, trace. cbn [fst snd].
  split; [reflexivity|]. split; [|intros msg]; event_solver.
Qed.

(** Scenario 4 again, through the theorem. *)
Lemma weak_retrieval_refused_at_score_check_witness :
  pipeline weak_search corpus url llm (replies good_answer)
           requests_raise_for_status sartre_query =
    ([Call_should_refuse_query sartre_query None; Call_retrieve sartre_query;
      St_write_scores (Float.Num (1 # 10)) MIN_SCORE; St_error REFUSAL_TEXT], Stopped) /\
  refused (pipeline weak_search corpus url llm (replies good_answer)
                    requests_raise_for_status sartre_query) /\
  (forall q ps, Call_should_refuse_query q (Some ps) ∉
     trace (pipeline weak_search corpus url llm (replies good_answer)
                     requests_raise_for_status sartre_query)) /\
  (forall q context, Call_generate_answer q context ∉
     trace (pipeline weak_search corpus url llm (replies good_answer)
                     requests_raise_for_status sartre_query)).
Proof.
  apply (weak_retrieval_refused_at_score_check weak_search corpus url llm
           (replies good_answer) requests_raise_for_status sartre_query
           [] (Float.Num (1 # 10))).
  - vm_compute. reflexivity.
  - vm_compute. reflexivity.
  - left. vm_compute. reflexivity.
Defined.

(** A timeout and a 503 response, each after the three local gates. *)
Lemma generator_fault_propagates_witness :
  ends (pipeline strong_search corpus url llm times_out
                 requests_raise_for_status sartre_query)
    = Failed (RequestException "Read timed out. (read timeout=120)") /\
  ends (pipeline strong_search corpus url llm (fails_with 503)
                 requests_raise_for_status sartre_query)
    = Failed (HTTPError 503) /\
  ~ refused (pipeline strong_search corpus url llm (fails_with 503)
                      requests_raise_for_status sartre_query).
Proof.
  split; [|split].
  - apply (proj2 (proj2 (generator_fault_propagates strong_search corpus url llm
             times_out requests_raise_for_status sartre_query
             (build_context [kept_passage])
             (RequestException "Read timed out. (read timeout=120)")
             (or_introl eq_refl))) [kept_passage] (Float.Num (3 # 4)) eq_refl).
    + vm_compute. reflexivity.
    + vm_compute. reflexivity.
    + split; [right; vm_compute; discriminate | discriminate].
    + vm_compute. reflexivity.
  - apply (proj2 (proj2 (generator_fault_propagates strong_search corpus url llm
             (fails_with 503) requests_raise_for_status sartre_query
             (build_context [kept_passage]) (HTTPError 503)
             (or_intror (ex_intro _ (mkResponse 503 None) (conj eq_refl eq_refl)))))
           [kept_passage] (Float.Num (3 # 4)) eq_refl).
    + vm_compute. reflexivity.
    + vm_compute. reflexivity.
    + split; [right; vm_compute; discriminate | discriminate].
    + vm_compute. reflexivity.
  - apply (proj2 (proj2 (generator_fault_propagates strong_search corpus url llm
             (fails_with 503) requests_raise_for_status sartre_query
             (build_context [kept_passage]) (HTTPError 503)
             (or_intror (ex_intro _ (mkResponse 503 None) (conj eq_refl eq_refl)))))
           [kept_passage] (Float.Num (3 # 4)) eq_refl).
    + vm_compute. reflexivity.
    + vm_compute. reflexivity.
    + split; [right; vm_compute; discriminate | discriminate].
    + vm_compute. reflexivity.
Defined.

(** The generator follows the REFUSAL RULE of the prompt to the letter. *)
Lemma prompt_refusal_surfaced_as_answer_witness :
  answered (pipeline strong_search corpus url llm (replies SYSTEM_RULES_REFUSAL)
                     requests_raise_for_status sartre_query)
           SYSTEM_RULES_REFUSAL /\
  ~ refused (pipeline strong_search corpus url llm (replies SYSTEM_RULES_REFUSAL)
                      requests_raise_for_status sartre_query).
Proof.
  apply (proj2 (proj2 (proj2 (prompt_refusal_surfaced_as_answer strong_search
           corpus url llm (replies SYSTEM_RULES_REFUSAL)
           requests_raise_for_status))) sartre_query [kept_passage] (Float.Num (3 # 4))).
  - vm_compute. reflexivity.
  - vm_compute. reflexivity.
  - split; [right; vm_compute; discriminate | discriminate].
  - vm_compute. reflexivity.
  - vm_compute. reflexivity.
Defined.

End Witnesses.

(** ** [ingest.py]: chunking *)

Section StringSlices.
Import Ingest.

Lemma str_app_nil_r (s : string) : (s ++ "")%string = s.
Proof. induction s as [|c s IH]; [reflexivity|]. by rewrite app_cons_str, IH. Qed.

Lemma str_app_assoc (a b c : string) : ((a ++ b) ++ c)%string = (a ++ b ++ c)%string.
Proof. induction a as [|x a IH]; [reflexivity|]. by rewrite !app_cons_str, IH. Qed.

Lemma str_length_zero (s : string) : String.length s = 0%nat -> s = "".
Proof. by destruct s. Qed.

Lemma str_take_drop (n : nat) (s : string) : (str_take n s ++ str_drop n s)%string = s.
Proof.
  revert s. induction n as [|n IH]; intros [|c s]; try reflexivity.
  simpl. by rewrite app_cons_str, IH.
Qed.

Lemma length_str_take (n : nat) (s : string) :
  String.length (str_take n s) = Nat.min n (String.length s).
Proof.
  revert s. induction n as [|n IH]; intros [|c s]; try reflexivity.
  simpl. by rewrite IH.
Qed.

Lemma length_str_drop (n : nat) (s : string) :
  String.length (str_drop n s) = (String.length s - n)%nat.
Proof.
  revert s. induction n as [|n IH]; intros [|c s]; try reflexivity.
  simpl. by rewrite IH.
Qed.

Lemma str_take_all (n : nat) (s : string) :
  (String.length s <= n)%nat -> str_take n s = s.
Proof.
  revert s. induction n as [|n IH]; intros [|c s]; simpl; try reflexivity; try lia.
  intros Hlen. f_equal. apply IH. lia.
Qed.

Lemma str_drop_drop (n m : nat) (s : string) :
  str_drop n (str_drop m s) = str_drop (m + n) s.
Proof.
  revert s. induction m as [|m IH]; intros s; [reflexivity|].
  destruct s as [|c s]; [by destruct n|]. simpl. apply IH.
Qed.

Lemma str_drop_app (n : nat) (a b : string) :
  (n <= String.length a)%nat -> str_drop n (a ++ b) = (str_drop n a ++ b)%string.
Proof.
  revert a. induction n as [|n IH]; intros [|c a]; simpl; try reflexivity; try lia.
  intros Hlen. rewrite ?app_cons_str. cbn [str_drop]. apply IH. lia.
Qed.

Lemma str_take_take (n m : nat) (s : string) :
  (n <= m)%nat -> str_take n (str_take m s) = str_take n s.
Proof.
  revert m s. induction n as [|n IH]; intros [|m] [|c s]; simpl;
    try reflexivity; try lia.
  intros Hle. f_equal. apply IH. lia.
Qed.

Lemma str_drop_take (a b : nat) (s : string) :
  str_drop a (str_take (a + b) s) = str_take b (str_drop a s).
Proof.
  revert s. induction a as [|a IH]; intros s; [by destruct b, s|].
  destruct s as [|c s]; [by destruct b|]. simpl. apply IH.
Qed.

(** A slice with both bounds inside the string, in order. *)
Lemma py_slice_inside (s : string) (a b : nat) :
  (a <= b <= String.length s)%nat ->
  py_slice s (Z.of_nat a) (Z.of_nat b) = str_take (b - a) (str_drop a s).
Proof.
  intros Hab. unfold py_slice, slice_bound. cbv zeta.
  destruct (Z.of_nat a <? 0)%Z eqn:Ha; [apply Z.ltb_lt in Ha; lia|].
  destruct (Z.of_nat b <? 0)%Z eqn:Hb; [apply Z.ltb_lt in Hb; lia|].
  replace (Z.max 0 (Z.min (Z.of_nat a) (Z.of_nat (String.length s))))
    with (Z.of_nat a) by lia.
  replace (Z.max 0 (Z.min (Z.of_nat b) (Z.of_nat (String.length s))))
    with (Z.of_nat b) by lia.
  rewrite Nat2Z.id. f_equal. lia.
Qed.

End StringSlices.

Section ChunkText.
Import Ingest Notions.

Variable text : string.
Variable chunk_size overlap : nat.
Hypothesis overlap_below_size : (overlap < chunk_size)%nat.

Local Abbreviation len := (String.length text).
Local Abbreviation loop fuel p :=
  (chunk_loop fuel text (Z.of_nat chunk_size) (Z.of_nat overlap) (Z.of_nat p)).

Lemma chunk_loop_done (fuel p : nat) :
  (len <= p)%nat -> loop (S fuel) p = Some [].
Proof.
  intros Hp. cbn [chunk_loop]. cbv zeta.
  destruct (Z.of_nat p <? Z.of_nat len)%Z eqn:Hlt; [apply Z.ltb_lt in Hlt; lia|].
  reflexivity.
Qed.

Lemma chunk_loop_last (fuel p : nat) :
  (p < len <= p + chunk_size)%nat -> loop (S fuel) p = Some [str_drop p text].
Proof.
  intros Hp. cbn [chunk_loop]. cbv zeta.
  destruct (Z.of_nat p <? Z.of_nat len)%Z eqn:Hlt;
    [|apply Z.ltb_ge in Hlt; lia].
  replace (Z.min (Z.of_nat p + Z.of_nat chunk_size) (Z.of_nat len))
    with (Z.of_nat len) by lia.
  rewrite Z.eqb_refl, py_slice_inside by lia.
  rewrite str_take_all; [reflexivity|]. rewrite length_str_drop. lia.
Qed.

Lemma chunk_loop_next (fuel p : nat) :
  (p + chunk_size < len)%nat ->
  loop (S fuel) p =
  match loop fuel (p + chunk_size - overlap) with
  | Some rest => Some (str_take chunk_size (str_drop p text) :: rest)
  | None => None
  end.
Proof.
  intros Hp. cbn [chunk_loop]. cbv zeta.
  destruct (Z.of_nat p <? Z.of_nat len)%Z eqn:Hlt;
    [|apply Z.ltb_ge in Hlt; lia].
  replace (Z.min (Z.of_nat p + Z.of_nat chunk_size) (Z.of_nat len))
    with (Z.of_nat (p + chunk_size)) by lia.
  destruct (Z.of_nat (p + chunk_size) =? Z.of_nat len)%Z eqn:Heq;
    [apply Z.eqb_eq in Heq; lia|].
  rewrite py_slice_inside by lia.
  replace (Z.of_nat (p + chunk_size) - Z.of_nat overlap)%Z
    with (Z.of_nat (p + chunk_size - overlap)) by lia.
  replace (p + chunk_size - p)%nat with chunk_size by lia.
  reflexivity.
Qed.

(** The loop ends within one iteration per character left, and one more. *)
Lemma chunk_loop_returns (fuel p : nat) :
  (len - p < fuel)%nat -> exists chunks, loop fuel p = Some chunks.
Proof.
  revert p. induction fuel as [|fuel IH]; intros p Hfuel; [lia|].
  destruct (decide (len <= p)%nat) as [Hdone|Hmore].
  { rewrite chunk_loop_done by done. eauto. }
  destruct (decide (len <= p + chunk_size)%nat) as [Hlast|Hnext].
  { rewrite chunk_loop_last by lia. eauto. }
  rewrite chunk_loop_next by lia.
  destruct (IH (p + chunk_size - overlap)%nat) as [rest ->]; [lia|]. eauto.
Qed.

Lemma join_empty_cons (x : string) (l : list string) :
  Text.join "" (x :: l) = (x ++ Text.join "" l)%string.
Proof. destruct l; [symmetry; apply str_app_nil_r | reflexivity]. Qed.

(** What the loop has appended when it ends, started at position [p]. *)
Lemma chunk_loop_inv (fuel : nat) :
  forall p chunks,
    loop fuel p = Some chunks ->
    unchunk overlap chunks = str_drop p text /\
    (chunks = [] <-> (len <= p)%nat) /\
    (forall i piece, chunks !! i = Some piece ->
       (1 <= String.length piece <= chunk_size)%nat /\
       (i = 0%nat -> piece = str_take chunk_size (str_drop p text)) /\
       (forall next, chunks !! S i = Some next ->
          String.length piece = chunk_size /\
          str_last overlap piece = str_take overlap next)).
Proof.
  induction fuel as [|fuel IH]; intros p chunks; [discriminate|].
  destruct (decide (len <= p)%nat) as [Hdone|Hmore].
  { rewrite chunk_loop_done by done. intros [= <-]. split; [|split].
    - cbn. symmetry. apply str_length_zero. rewrite length_str_drop. lia.
    - done.
    - intros i piece Hi. by rewrite lookup_nil in Hi. }
  destruct (decide (len <= p + chunk_size)%nat) as [Hlast|Hnext].
  { rewrite chunk_loop_last by lia. intros [= <-]. split; [|split].
    - cbn. apply str_app_nil_r.
    - split; [discriminate | lia].
    - intros [|i] piece Hi; [|by rewrite lookup_cons, lookup_nil in Hi].
      injection Hi as <-. rewrite length_str_drop. split; [lia|]. split.
      + intros _. symmetry. apply str_take_all. rewrite length_str_drop. lia.
      + intros next Hn. by rewrite lookup_cons, lookup_nil in Hn. }
  rewrite chunk_loop_next by lia.
  destruct (loop fuel (p + chunk_size - overlap)) as [rest|] eqn:Hrest;
    [|discriminate].
  intros [= <-].
  destruct (IH _ _ Hrest) as (Hcover & Hnil & Hpieces).
  destruct rest as [|next rest].
  { destruct Hnil as [Hnil _]. specialize (Hnil eq_refl). lia. }
  destruct (Hpieces 0%nat next eq_refl) as (Hnext_len & Hnext_eq & _).
  specialize (Hnext_eq eq_refl).
  assert (Hlen_next : (overlap <= String.length next)%nat).
  { rewrite Hnext_eq, length_str_take, length_str_drop. lia. }
  split; [|split].
  - cbn [unchunk map] in *. rewrite join_empty_cons.
    rewrite <- str_drop_app by exact Hlen_next.
    rewrite Hcover, str_drop_drop.
    replace (p + chunk_size - overlap + overlap)%nat with (p + chunk_size)%nat by lia.
    rewrite <- (str_drop_drop chunk_size p). apply str_take_drop.
  - split; [discriminate | lia].
  - intros [|i] piece Hi.
    + injection Hi as <-. rewrite length_str_take, length_str_drop.
      split; [lia|]. split; [done|].
      intros next' [= <-]. split; [lia|].
      unfold str_last. rewrite length_str_take, length_str_drop.
      replace (Nat.min chunk_size (len - p) - overlap)%nat
        with (chunk_size - overlap)%nat by lia.
      rewrite Hnext_eq, str_take_take by lia.
      replace chunk_size with (chunk_size - overlap + overlap)%nat at 2 by lia.
      rewrite str_drop_take, str_drop_drop.
      by replace (p + (chunk_size - overlap))%nat
        with (p + chunk_size - overlap)%nat by lia.
    + rewrite lookup_cons in Hi. destruct (Hpieces i piece Hi) as (Hb & _ & Hadj).
      split; [exact Hb|]. split; [discriminate|].
      intros next' Hn. rewrite lookup_cons in Hn. by apply Hadj.
Qed.

End ChunkText.

Section ChunkTextProperties.
Import Ingest Notions.

(** X1. With an overlap below the chunk size, [chunk_text] returns (the
    loop ends within one iteration per character and one more). The chunks
    are empty only for the empty text; every chunk has at least one
    character and at most [chunk_size]; and every chunk that is followed
    by another one has exactly [chunk_size] characters. *)
Theorem chunk_text_returns_bounded_chunks
    (text : string) (chunk_size overlap : Z) (fuel : nat) :
  (0 <= overlap < chunk_size)%Z ->
  (String.length text < fuel)%nat ->
  exists chunks,
    chunk_text fuel text chunk_size overlap = Some chunks /\
    (chunks = [] <-> text = "") /\
    Forall (fun piece => (1 <= String.length piece)%nat /\
                         (Z.of_nat (String.length piece) <= chunk_size)%Z) chunks /\
    (forall i piece next,
       chunks !! i = Some piece -> chunks !! S i = Some next ->
       Z.of_nat (String.length piece) = chunk_size).
Proof.
  intros Hov Hfuel. unfold chunk_text.
  rewrite <- (Z2Nat.id chunk_size), <- (Z2Nat.id overlap) by lia.
  assert (Hlt : (Z.to_nat overlap < Z.to_nat chunk_size)%nat) by lia.
  destruct (chunk_loop_returns text (Z.to_nat chunk_size) (Z.to_nat overlap)
              Hlt fuel 0) as [chunks Hchunks]; [lia|].
  change 0%Z with (Z.of_nat 0). exists chunks. split; [exact Hchunks|].
  destruct (chunk_loop_inv text _ _ Hlt fuel 0%nat chunks Hchunks)
    as (_ & Hnil & Hpieces).
  split; [|split].
  - rewrite Hnil. split.
    + intros Hlen. apply str_length_zero. lia.
    + intros ->. simpl. lia.
  - apply Forall_lookup. intros i piece Hi.
    destruct (Hpieces i piece Hi) as (Hb & _). lia.
  - intros i piece next Hi Hn.
    destruct (Hpieces i piece Hi) as (_ & _ & Hadj).
    destruct (Hadj next Hn) as [Hlen _]. lia.
Qed.

(** X2. With an overlap below the chunk size, the chunks cover the text
    and nothing else: the first chunk followed by every later chunk
    without its first [overlap] characters is the text again. *)
Theorem chunk_text_covers_text
    (text : string) (chunk_size overlap : Z) (fuel : nat) (chunks : list string) :
  (0 <= overlap < chunk_size)%Z ->
  chunk_text fuel text chunk_size overlap = Some chunks ->
  unchunk (Z.to_nat overlap) chunks = text.
Proof.
  intros Hov. unfold chunk_text.
  rewrite <- (Z2Nat.id chunk_size), <- (Z2Nat.id overlap) at 1 by lia.
  assert (Hlt : (Z.to_nat overlap < Z.to_nat chunk_size)%nat) by lia.
  change 0%Z with (Z.of_nat 0). intros Hchunks.
  by destruct (chunk_loop_inv text _ _ Hlt fuel 0%nat chunks Hchunks) as (-> & _).
Qed.

(** X3. With an overlap below the chunk size, two chunks in a row share
    [overlap] characters: the last ones of the first chunk are the first
    ones of the next. *)
Theorem chunk_text_neighbours_overlap
    (text : string) (chunk_size overlap : Z) (fuel : nat) (chunks : list string)
    (i : nat) (piece next : string) :
  (0 <= overlap < chunk_size)%Z ->
  chunk_text fuel text chunk_size overlap = Some chunks ->
  chunks !! i = Some piece -> chunks !! S i = Some next ->
  str_last (Z.to_nat overlap) piece = str_take (Z.to_nat overlap) next /\
  String.length (str_take (Z.to_nat overlap) next) = Z.to_nat overlap.
Proof.
  intros Hov. unfold chunk_text.
  rewrite <- (Z2Nat.id chunk_size), <- (Z2Nat.id overlap) at 1 by lia.
  assert (Hlt : (Z.to_nat overlap < Z.to_nat chunk_size)%nat) by lia.
  change 0%Z with (Z.of_nat 0). intros Hchunks Hi Hn.
  destruct (chunk_loop_inv text _ _ Hlt fuel 0%nat chunks Hchunks)
    as (_ & _ & Hpieces).
  destruct (Hpieces i piece Hi) as (_ & _ & Hadj).
  destruct (Hadj next Hn) as [Hlen Hshare]. split; [exact Hshare|].
  rewrite <- Hshare. unfold str_last. rewrite length_str_drop. lia.
Qed.

Lemma chunk_loop_stuck (text : string) (chunk_size overlap : Z) (fuel : nat) :
  (chunk_size <= overlap)%Z ->
  forall start,
    (start < Z.of_nat (String.length text))%Z ->
    (start + chunk_size < Z.of_nat (String.length text))%Z ->
    chunk_loop fuel text chunk_size overlap start = None.
Proof.
  intros Hov. induction fuel as [|fuel IH]; intros start Hstart Hend;
    [reflexivity|].
  cbn [chunk_loop]. cbv zeta.
  destruct (start <? Z.of_nat (String.length text))%Z eqn:Hlt;
    [|apply Z.ltb_ge in Hlt; lia].
  replace (Z.min (start + chunk_size) (Z.of_nat (String.length text)))
    with (start + chunk_size)%Z by lia.
  destruct (start + chunk_size =? Z.of_nat (String.length text))%Z eqn:Heq;
    [apply Z.eqb_eq in Heq; lia|].
  rewrite IH by lia. reflexivity.
Qed.

(** X4. With an overlap of at least the chunk size, [chunk_text] never
    returns on a text longer than one chunk: the start position does not
    advance, whatever the number of iterations. *)
Theorem chunk_text_never_returns
    (text : string) (chunk_size overlap : Z) (fuel : nat) :
  (chunk_size <= overlap)%Z ->
  text <> "" ->
  (chunk_size < Z.of_nat (String.length text))%Z ->
  chunk_text fuel text chunk_size overlap = None.
Proof.
  intros Hov Htext Hlong. apply chunk_loop_stuck; [done| |lia].
  destruct text; [done|]. simpl. lia.
Qed.

(** X5. A text of at most [chunk_size] characters is one chunk, the text
    itself, whatever the overlap; the empty text has no chunk. *)
Theorem chunk_text_short_text
    (text : string) (chunk_size overlap : Z) (fuel : nat) :
  (Z.of_nat (String.length text) <= chunk_size)%Z ->
  chunk_text (S fuel) text chunk_size overlap =
  Some (if String.eqb text "" then [] else [text]).
Proof.
  intros Hshort. unfold chunk_text. cbn [chunk_loop]. cbv zeta.
  destruct (String.eqb_spec text "") as [->|Hne]; [reflexivity|].
  assert (0 < String.length text)%nat by (destruct text; [done | simpl; lia]).
  destruct (0 <? Z.of_nat (String.length text))%Z eqn:Hlt;
    [|apply Z.ltb_ge in Hlt; lia].
  replace (Z.min (0 + chunk_size) (Z.of_nat (String.length text)))
    with (Z.of_nat (String.length text)) by lia.
  rewrite Z.eqb_refl.
  change 0%Z with (Z.of_nat 0). rewrite py_slice_inside by lia.
  cbn [str_drop]. rewrite str_take_all by lia. reflexivity.
Qed.

End ChunkTextProperties.

Lemma chunk_text_returns_bounded_chunks_witness :
  exists chunks,
    Ingest.chunk_text 11 "abcdefghij" 4 1 = Some chunks /\
    (chunks = [] <-> "abcdefghij" = "") /\
    Forall (fun piece => (1 <= String.length piece)%nat /\
                         (Z.of_nat (String.length piece) <= 4)%Z) chunks /\
    (forall i piece next,
       chunks !! i = Some piece -> chunks !! S i = Some next ->
       Z.of_nat (String.length piece) = 4%Z).
Proof.
  apply (chunk_text_returns_bounded_chunks "abcdefghij" 4 1 11); [lia|].
  simpl. lia.
Defined.

Lemma chunk_text_covers_text_witness :
  Notions.unchunk (Z.to_nat 1) ["abcd"; "defg"; "ghij"] = "abcdefghij".
Proof.
  apply (chunk_text_covers_text "abcdefghij" 4 1 11); [lia | reflexivity].
Defined.

Lemma chunk_text_neighbours_overlap_witness :
  Notions.str_last (Z.to_nat 2) "abcde" = Ingest.str_take (Z.to_nat 2) "defgh" /\
  String.length (Ingest.str_take (Z.to_nat 2) "defgh") = Z.to_nat 2.
Proof.
  apply (chunk_text_neighbours_overlap "abcdefghij" 5 2 11
           ["abcde"; "defgh"; "ghij"] 0 "abcde" "defgh");
    [lia | reflexivity | reflexivity | reflexivity].
Defined.

Lemma chunk_text_never_returns_witness :
  Ingest.chunk_text 1000 "abcde" 4 4 = None.
Proof.
  apply (chunk_text_never_returns "abcde" 4 4 1000); [lia | discriminate|].
  simpl. lia.
Defined.

Lemma chunk_text_short_text_witness :
  Ingest.chunk_text 1 "abc" 4 9 = Some ["abc"].
Proof.
  apply (chunk_text_short_text "abc" 4 9 0). simpl. lia.
Defined.

(** ** [ingest.py]: page texts and corpus records *)

Section Normalisation.
Import Ingest Notions.

Lemma all_chars_app (P : ascii -> bool) (a b : string) :
  all_chars P (a ++ b) = all_chars P a && all_chars P b.
Proof.
  induction a as [|c a IH]; [reflexivity|].
  rewrite app_cons_str. simpl. by rewrite IH, andb_assoc.
Qed.

Lemma space_fields_cons (s : string) : exists r rs, space_fields s = r :: rs.
Proof.
  destruct s as [|c s]; simpl; [eauto|].
  destruct (Text.is_space c); [eauto|]. destruct (space_fields s); eauto.
Qed.

Lemma space_fields_no_space (s : string) :
  Forall (fun w => all_chars not_space w = true) (space_fields s).
Proof.
  induction s as [|c s IH]; simpl; [by repeat constructor|].
  destruct (Text.is_space c) eqn:Hc; [by constructor|].
  destruct (space_fields s) as [|r rs].
  - constructor; [|constructor]. simpl. unfold not_space. by rewrite Hc.
  - apply Forall_cons in IH as [Hr Hrs]. constructor; [|exact Hrs].
    simpl. unfold not_space at 1. by rewrite Hc, Hr.
Qed.

(** A stretch without whitespace joins the first field of what follows. *)
Lemma space_fields_word_app (w s : string) (r : string) (rs : list string) :
  all_chars not_space w = true ->
  space_fields s = r :: rs ->
  space_fields (w ++ s) = (w ++ r)%string :: rs.
Proof.
  intros Hw Hs. induction w as [|c w IH]; [by rewrite app_nil_l_str|].
  simpl in Hw. apply andb_true_iff in Hw as [Hc Hw].
  rewrite !app_cons_str. cbn [space_fields].
  unfold not_space in Hc. apply negb_true_iff in Hc. rewrite Hc.
  by rewrite (IH Hw).
Qed.

Lemma split_words (s : string) : Forall word (split s).
Proof.
  unfold split. apply Forall_forall. intros w Hw.
  apply list_elem_of_In, filter_In in Hw as [Hin Hne].
  split.
  - apply negb_true_iff, String.eqb_neq in Hne. exact Hne.
  - pose proof (space_fields_no_space s) as Hall.
    rewrite Forall_forall in Hall. by apply Hall, list_elem_of_In.
Qed.

Lemma split_space_cons (c : ascii) (s : string) :
  Text.is_space c = true -> split (String c s) = split s.
Proof. intros Hc. unfold split. cbn [space_fields]. by rewrite Hc. Qed.

Lemma split_word_app_space (w s : string) :
  word w -> split (w ++ " " ++ s) = w :: split s.
Proof.
  intros [Hne Hw]. unfold split.
  rewrite (space_fields_word_app w (" " ++ s) "" (space_fields s) Hw);
    [|reflexivity].
  rewrite str_app_nil_r. cbn [List.filter].
  apply String.eqb_neq in Hne. by rewrite Hne.
Qed.

Lemma split_single_word (w : string) : word w -> split w = [w].
Proof.
  intros [Hne Hw]. unfold split.
  rewrite <- (str_app_nil_r w) at 1.
  rewrite (space_fields_word_app w "" "" [] Hw); [|reflexivity].
  rewrite str_app_nil_r. cbn [List.filter].
  apply String.eqb_neq in Hne. by rewrite Hne.
Qed.

(** Splitting what was joined by single spaces gives the words back. *)
Lemma split_join (ws : list string) :
  Forall word ws -> split (Text.join " " ws) = ws.
Proof.
  induction 1 as [|w ws Hw Hws IH]; [reflexivity|].
  destruct ws as [|w' ws].
  - by apply split_single_word.
  - change (Text.join " " (w :: w' :: ws))
      with (w ++ " " ++ Text.join " " (w' :: ws))%string.
    by rewrite split_word_app_space, IH.
Qed.

(** X6. Normalising a page text keeps its words, in order, and a text
    that is normalised already is left as it is. *)
Theorem normalize_keeps_words (text : string) :
  split (normalize text) = split text /\
  Forall word (split text) /\
  normalize (normalize text) = normalize text.
Proof.
  pose proof (split_words text) as Hwords.
  assert (Hsplit : split (normalize text) = split text)
    by (unfold normalize; by apply split_join).
  split; [exact Hsplit|]. split; [exact Hwords|].
  unfold normalize at 1. by rewrite Hsplit.
Qed.

Lemma split_nil_blank (s : string) :
  split s = [] <-> all_chars Text.is_space s = true.
Proof.
  induction s as [|c s IH]; [done|].
  simpl. destruct (Text.is_space c) eqn:Hc.
  - by rewrite split_space_cons.
  - simpl. split; [|discriminate]. unfold split. cbn [space_fields]. rewrite Hc.
    destruct (space_fields s); discriminate.
Qed.

Lemma lstrip_nil_blank (s : string) :
  Text.lstrip s = "" <-> all_chars Text.is_space s = true.
Proof.
  induction s as [|c s IH]; [done|]. simpl.
  destruct (Text.is_space c); [exact IH | split; discriminate].
Qed.

Lemma rstrip_nil_blank (s : string) :
  Text.rstrip s = "" <-> all_chars Text.is_space s = true.
Proof.
  induction s as [|c s IH]; [done|]. simpl.
  destruct (Text.rstrip s) as [|d r].
  - destruct IH as [IH _]. rewrite (IH eq_refl), andb_true_r.
    destruct (Text.is_space c); split; done.
  - split; [discriminate|]. intros Hall. apply andb_true_iff in Hall as [_ Hall].
    by apply IH in Hall.
Qed.

Lemma lstrip_blank_iff (s : string) :
  all_chars Text.is_space (Text.lstrip s) = all_chars Text.is_space s.
Proof.
  induction s as [|c s IH]; [done|]. simpl.
  destruct (Text.is_space c) eqn:Hc; [exact IH|]. simpl. by rewrite Hc.
Qed.

(** A string strips to nothing exactly when it is whitespace only. *)
Lemma strip_nil_blank (s : string) :
  Text.strip s = "" <-> all_chars Text.is_space s = true.
Proof. unfold Text.strip. by rewrite rstrip_nil_blank, lstrip_blank_iff. Qed.

Lemma join_words_blank (ws : list string) :
  Forall word ws ->
  all_chars Text.is_space (Text.join " " ws) = true <-> ws = [].
Proof.
  intros Hws. split; [|by intros ->].
  destruct Hws as [|w ws [Hne Hw] _]; [done|]. intros Hall. exfalso.
  assert (Hfirst : all_chars Text.is_space w = true).
  { destruct ws as [|w' ws]; [exact Hall|].
    change (Text.join " " (w :: w' :: ws))
      with (w ++ " " ++ Text.join " " (w' :: ws))%string in Hall.
    rewrite all_chars_app in Hall. by apply andb_true_iff in Hall as [? _]. }
  destruct w as [|c w]; [done|]. simpl in Hw, Hfirst.
  apply andb_true_iff in Hw as [Hc _]. apply andb_true_iff in Hfirst as [Hc' _].
  unfold not_space in Hc. by rewrite Hc' in Hc.
Qed.

(** The test [if text.strip():] on a normalised text fails exactly for a
    page that is whitespace only. *)
Lemma strip_normalize_nil (text : string) :
  Text.strip (normalize text) = "" <-> all_chars Text.is_space text = true.
Proof.
  rewrite strip_nil_blank. unfold normalize.
  rewrite join_words_blank by apply split_words. apply split_nil_blank.
Qed.

Lemma read_pages_spec (name : string) (extracted : list (option string)) :
  forall first pg,
    pg ∈ read_pages name extracted first <->
    exists (k : nat) (t : string),
      extracted !! k = Some (Some t) /\
      all_chars Text.is_space t = false /\
      pg = {| p_text := normalize t; p_page := (first + Z.of_nat k + 1)%Z;
              p_source := name |}.
Proof.
  induction extracted as [|e rest IH]; intros first pg.
  - cbn [read_pages]. rewrite elem_of_nil. split; [done|].
    intros (k & t & Hk & _). by rewrite lookup_nil in Hk.
  - cbn [read_pages]. cbv zeta.
    set (t0 := match e with Some t => t | None => "" end).
    assert (Hlater : pg ∈ read_pages name rest (first + 1) <->
      exists (k : nat) (t : string),
        rest !! k = Some (Some t) /\ all_chars Text.is_space t = false /\
        pg = {| p_text := normalize t; p_page := (first + Z.of_nat (S k) + 1)%Z;
                p_source := name |}).
    { rewrite IH. split; intros (k & t & Hk & Hnb & ->); exists k, t;
        (split; [done|]); (split; [done|]); f_equal; lia. }
    destruct (String.eqb_spec (Text.strip (normalize t0)) "") as [Hblank|Hfull];
      cbn [negb].
    + apply strip_normalize_nil in Hblank. rewrite Hlater. split.
      * intros (k & t & Hk & Hnb & ->). by exists (S k), t.
      * intros ([|k] & t & Hk & Hnb & ->).
        -- exfalso. cbn in Hk. injection Hk as ->. subst t0. cbn in Hblank.
           congruence.
        -- by exists k, t.
    + rewrite strip_normalize_nil in Hfull. apply not_true_iff_false in Hfull.
      rewrite elem_of_cons, Hlater. split.
      * intros [->|(k & t & Hk & Hnb & ->)].
        -- destruct e as [t|]; [|done]. exists 0%nat, t.
           split; [done|]. split; [exact Hfull|]. f_equal. lia.
        -- by exists (S k), t.
      * intros ([|k] & t & Hk & Hnb & ->).
        -- left. cbn in Hk. injection Hk as ->. subst t0. f_equal. lia.
        -- right. by exists k, t.
Qed.

Lemma read_pages_increasing (name : string) (extracted : list (option string)) :
  forall first,
    StronglySorted Z.lt (map p_page (read_pages name extracted first)) /\
    Forall (fun n => (first < n)%Z) (map p_page (read_pages name extracted first)).
Proof.
  induction extracted as [|e rest IH]; intros first; cbn [read_pages];
    [split; constructor|].
  cbv zeta. destruct (IH (first + 1)%Z) as [Hs Hb].
  assert (Hb' : Forall (fun n => (first < n)%Z)
                       (map p_page (read_pages name rest (first + 1)))).
  { eapply Forall_impl; [exact Hb|]. intros n Hn. simpl in Hn. lia. }
  destruct (negb _); [|by split].
  cbn [map p_page]. split.
  - constructor; [exact Hs|]. exact Hb.
  - constructor; [lia | exact Hb'].
Qed.

Lemma read_pdf_text_pages (name : string) (extracted : list (option string)) :
  forall pg,
    pg ∈ read_pdf_text name extracted <->
    exists (k : nat) (t : string),
      extracted !! k = Some (Some t) /\
      ~ blank (Some t) /\
      pg = {| p_text := normalize t; p_page := Z.of_nat k + 1; p_source := name |}.
Proof.
  intros pg. unfold read_pdf_text. rewrite read_pages_spec.
  split; intros (k & t & Hk & Hnb & ->); exists k, t; (split; [done|]).
  - split; [cbn; congruence | f_equal].
  - split; [cbn in Hnb; by apply not_true_iff_false | f_equal].
Qed.

(** X7. [read_pdf_text] keeps exactly the pages that have a character
    other than whitespace, each with its normalised text, the name of the
    file and its position in the file counted from 1; the records come in
    increasing page order. *)
Theorem read_pdf_text_keeps_pages_with_text
    (name : string) (extracted : list (option string)) :
  (forall pg,
     pg ∈ read_pdf_text name extracted <->
     exists (k : nat) (t : string),
       extracted !! k = Some (Some t) /\
       ~ blank (Some t) /\
       pg = {| p_text := normalize t; p_page := Z.of_nat k + 1; p_source := name |}) /\
  StronglySorted Z.lt (map p_page (read_pdf_text name extracted)).
Proof.
  split; [apply read_pdf_text_pages | apply read_pages_increasing].
Qed.

End Normalisation.

Section Corpus.
Import Rag Ingest Notions.

(** Every chunk the loop appends is a stretch of the text. *)
Lemma chunk_loop_pieces_in_text
    (text : string) (chunk_size overlap : nat) (fuel : nat) :
  (overlap < chunk_size)%nat ->
  forall p chunks,
    chunk_loop fuel text (Z.of_nat chunk_size) (Z.of_nat overlap) (Z.of_nat p)
      = Some chunks ->
    Forall (fun piece => exists pre post : string,
                text = (pre ++ piece ++ post)%string) chunks.
Proof.
  intros Hov. induction fuel as [|fuel IH]; intros p chunks; [discriminate|].
  destruct (decide (String.length text <= p)%nat) as [Hdone|Hmore].
  { rewrite chunk_loop_done by done. intros [= <-]. constructor. }
  destruct (decide (String.length text <= p + chunk_size)%nat) as [Hlast|Hnext].
  { rewrite chunk_loop_last by lia. intros [= <-]. constructor; [|constructor].
    exists (str_take p text), "". by rewrite str_app_nil_r, str_take_drop. }
  rewrite chunk_loop_next by lia.
  destruct (chunk_loop fuel text _ _ (Z.of_nat (p + chunk_size - overlap)))
    as [rest|] eqn:Hrest; [|discriminate].
  intros [= <-]. constructor; [|by eapply IH].
  exists (str_take p text), (str_drop chunk_size (str_drop p text)).
  by rewrite !str_take_drop.
Qed.

Lemma page_records_spec (pg : Page) :
  exists recs, page_records pg = Some recs /\ Forall (record_of_page pg) recs.
Proof.
  unfold page_records, chunk_text.
  change CHUNK_SIZE with (Z.of_nat 800). change CHUNK_OVERLAP with (Z.of_nat 150).
  change 0%Z with (Z.of_nat 0).
  assert (Hov : (150 < 800)%nat) by lia.
  destruct (chunk_loop_returns (p_text pg) 800 150 Hov
              (S (String.length (p_text pg))) 0) as [pieces Hpieces]; [lia|].
  rewrite Hpieces. eexists. split; [reflexivity|].
  destruct (chunk_loop_inv (p_text pg) 800 150 Hov _ _ _ Hpieces)
    as (_ & _ & Hbounds).
  pose proof (chunk_loop_pieces_in_text (p_text pg) 800 150 _ Hov _ _ Hpieces)
    as Hin.
  apply Forall_fmap, Forall_lookup. intros i piece Hi.
  rewrite Forall_lookup in Hin.
  destruct (Hbounds i piece Hi) as [Hb _].
  unfold record_of_page. cbn. eauto using Hin.
Qed.

Lemma pages_records_spec (pages : list Page) :
  exists recs,
    pages_records pages = Some recs /\
    Forall (fun r => exists pg, pg ∈ pages /\ record_of_page pg r) recs.
Proof.
  induction pages as [|pg pages (more & Hmore & Hall)]; cbn [pages_records].
  - eexists. split; [reflexivity | constructor].
  - destruct (page_records_spec pg) as (recs & -> & Hrecs). rewrite Hmore.
    eexists. split; [reflexivity|]. apply Forall_app. split.
    + eapply Forall_impl; [exact Hrecs|]. intros r Hr. exists pg.
      split; [by left | exact Hr].
    + eapply Forall_impl; [exact Hall|]. intros r (pg' & Hin & Hr).
      exists pg'. split; [by right | exact Hr].
Qed.

(** X8. [build_corpus] returns for every set of files (the chunking loop
    ends for the configured sizes), and every record it makes names a file
    that was read and a page of it, counted from 1, that has text; its
    chunk is a stretch of that page's normalised text of 1 to 800
    characters. *)
Theorem build_corpus_records (pdfs : list (string * list (option string))) :
  exists corpus,
    build_corpus pdfs = Some corpus /\
    Forall (fun r =>
              exists extracted (k : nat) (t : string),
                (c_source r, extracted) ∈ pdfs /\
                extracted !! k = Some (Some t) /\
                ~ blank (Some t) /\
                c_page r = (Z.of_nat k + 1)%Z /\
                (exists pre post : string,
                   normalize t = (pre ++ c_chunk r ++ post)%string) /\
                (1 <= String.length (c_chunk r) <= 800)%nat) corpus.
Proof.
  induction pdfs as [|[name extracted] pdfs (more & Hmore & Hall)];
    cbn [build_corpus].
  - eexists. split; [reflexivity | constructor].
  - destruct (pages_records_spec (read_pdf_text name extracted))
      as (recs & -> & Hrecs).
    rewrite Hmore. eexists. split; [reflexivity|]. apply Forall_app. split.
    + eapply Forall_impl; [exact Hrecs|].
      intros r (pg & Hin & Hsrc & Hpage & Hsub & Hlen).
      apply read_pdf_text_pages in Hin as (k & t & Hk & Hnb & ->).
      cbn in Hsrc, Hpage, Hsub. exists extracted, k, t.
      rewrite Hsrc. split; [by left|]. eauto 10.
    + eapply Forall_impl; [exact Hall|].
      intros r (ex & k & t & Hin & Hrest). exists ex, k, t.
      split; [by right | exact Hrest].
Qed.

End Corpus.

(** ** Further properties of the topic gate and the support verifier *)

Section GateFacts.
Import Rag SupportSpec Notions.

(** X9. The gates read the query in lower case only: two queries that
    differ in the case of their letters get the same decision from
    [should_refuse_query], with or without passages. *)
Theorem should_refuse_query_ignores_case
    (query1 query2 : string) (passages : option (list Passage)) :
  Text.lower query1 = Text.lower query2 ->
  should_refuse_query query1 passages = should_refuse_query query2 passages.
Proof.
  intros Hsame. rewrite !should_refuse_query_value.
  assert (Hb : has_banned_terms query1 = has_banned_terms query2)
    by (unfold has_banned_terms; cbv zeta; by rewrite Hsame).
  assert (Ha : in_allowed_domain query1 = in_allowed_domain query2)
    by (unfold in_allowed_domain; cbv zeta; by rewrite Hsame).
  assert (Hs : forall ps, query_supported_by_context query1 ps
                          = query_supported_by_context query2 ps).
  { intros ps. unfold query_supported_by_context, _keywords. cbv zeta.
    by rewrite Hsame. }
  rewrite Hb, Ha. destruct passages as [ps|]; [by rewrite Hs | reflexivity].
Qed.

(** X10. The call with passages repeats the two checks of the call
    without them: a query refused without passages is refused with any
    passages, and for a query that passed without passages the call with
    passages refuses exactly when the support verifier rejects. *)
Theorem second_gate_repeats_first (query : string) :
  (should_refuse_query query None = true ->
   forall passages, should_refuse_query query (Some passages) = true) /\
  (should_refuse_query query None = false ->
   forall passages,
     should_refuse_query query (Some passages)
     = negb (query_supported_by_context query passages)).
Proof.
  rewrite should_refuse_query_value. split; intros Hfirst passages;
    rewrite should_refuse_query_value;
    destruct (has_banned_terms query), (in_allowed_domain query),
      (query_supported_by_context query passages); simpl in *; congruence.
Qed.

Lemma contains_nil (t : string) : Text.contains t "" = true -> t = "".
Proof. destruct t; [done | discriminate]. Qed.

Lemma content_term_length (query t : string) :
  t ∈ content_terms query -> (3 <= String.length t)%nat.
Proof.
  unfold content_terms. rewrite elem_of_difference, elem_of_list_to_set,
    elem_of_findall_alpha3. tauto.
Qed.

Lemma required_hits_positive (query : string) : (1 <= required_hits query)%nat.
Proof. unfold required_hits. case_decide; lia. Qed.

(** X11. With no passage at all nothing is supported: on an empty list
    [query_supported_by_context] returns false for every query. *)
Theorem no_passages_no_support (query : string) :
  query_supported_by_context query [] = false.
Proof.
  rewrite query_supported_by_context_unfold. case_decide; [reflexivity|].
  apply bool_decide_eq_false. unfold hit_count.
  replace (filter (fun t => Text.contains t (context_text []) = true)
                  (content_terms query)) with (∅ : gset string).
  - rewrite size_empty. pose proof (required_hits_positive query). lia.
  - symmetry. apply set_eq. intros t.
    rewrite elem_of_filter, elem_of_empty. split; [|done].
    intros [Hin Hterm]. apply contains_nil in Hin. subst t.
    apply content_term_length in Hterm. simpl in Hterm. lia.
Qed.

Lemma lower_app (a b : string) :
  Text.lower (a ++ b) = (Text.lower a ++ Text.lower b)%string.
Proof.
  induction a as [|c a IH]; [reflexivity|].
  rewrite app_cons_str. simpl. by rewrite IH, app_cons_str.
Qed.

Lemma join_app_middle (sep : string) (before middle after : list string) :
  exists l r : string,
    Text.join sep (before ++ middle ++ after)
    = (l ++ Text.join sep middle ++ r)%string.
Proof.
  assert (Hright : forall xs ys : list string,
    exists r : string, Text.join sep (xs ++ ys) = (Text.join sep xs ++ r)%string).
  { induction xs as [|x [|x' xs] IH]; intros ys.
    - by exists (Text.join sep ys).
    - destruct ys as [|y ys]; [by exists ""; rewrite str_app_nil_r|].
      by exists (sep ++ Text.join sep (y :: ys))%string.
    - destruct (IH ys) as [r Hr].
      change (Text.join sep ((x :: x' :: xs) ++ ys))
        with (x ++ sep ++ Text.join sep ((x' :: xs) ++ ys))%string.
      rewrite Hr. exists r.
      change (Text.join sep (x :: x' :: xs))
        with (x ++ sep ++ Text.join sep (x' :: xs))%string.
      by rewrite !str_app_assoc. }
  induction before as [|x before (l & r & Hlr)].
  - destruct (Hright middle after) as [r Hr]. by exists "", r.
  - cbn [app]. destruct (before ++ middle ++ after) as [|y rest] eqn:Hrest.
    + apply app_eq_nil in Hrest as [_ Hrest].
      apply app_eq_nil in Hrest as [-> _].
      exists x, "". by rewrite app_nil_l_str, str_app_nil_r.
    + exists (x ++ sep ++ l)%string, r.
      change (Text.join sep (x :: y :: rest))
        with (x ++ sep ++ Text.join sep (y :: rest))%string.
      by rewrite Hlr, !str_app_assoc.
Qed.

Lemma contains_in_larger (t l s r : string) :
  Text.contains t s = true -> Text.contains t (l ++ s ++ r) = true.
Proof.
  rewrite !contains_substring. intros (pre & post & ->).
  exists (l ++ pre)%string, (post ++ r)%string. by rewrite !str_app_assoc.
Qed.

(** X12. Support is never lost by retrieving more: when the passages
    support a query, so does every list that holds them in a row, with
    other passages before and after. *)
Theorem support_survives_more_passages
    (query : string) (before passages after : list Passage) :
  query_supported_by_context query passages = true ->
  query_supported_by_context query (before ++ passages ++ after) = true.
Proof.
  rewrite !query_supported_by_context_unfold. case_decide; [done|].
  rewrite !bool_decide_eq_true. intros Hhits.
  etrans; [exact Hhits|]. unfold hit_count. apply subseteq_size.
  intros t. rewrite !elem_of_filter. intros [Hin Hterm]. split; [|exact Hterm].
  unfold context_text in *. rewrite !map_app.
  destruct (join_app_middle " " (map chunk before) (map chunk passages)
              (map chunk after)) as (l & r & ->).
  rewrite !lower_app. by apply contains_in_larger.
Qed.

Lemma lower_char_not_upper (c : ascii) :
  Text.is_upper (Text.lower_char c) = false.
Proof.
  destruct c as [b0 b1 b2 b3 b4 b5 b6 b7].
  destruct b0, b1, b2, b3, b4, b5, b6, b7; reflexivity.
Qed.

Lemma lower_no_upper (s : string) :
  all_chars (fun c => negb (Text.is_upper c)) (Text.lower s) = true.
Proof.
  induction s as [|c s IH]; [reflexivity|].
  simpl. by rewrite lower_char_not_upper, IH.
Qed.

Lemma all_alpha_chars (t : string) : all_alpha t = all_chars Text.is_alpha t.
Proof. induction t as [|c t IH]; [reflexivity|]. simpl. by rewrite IH. Qed.

Lemma all_chars_and (P Q R : ascii -> bool) (t : string) :
  (forall c, P c = true -> Q c = true -> R c = true) ->
  all_chars P t = true -> all_chars Q t = true -> all_chars R t = true.
Proof.
  intros HPQ. induction t as [|c t IH]; [done|]. simpl.
  rewrite !andb_true_iff. intros [Hp Hps] [Hq Hqs]. auto.
Qed.

(** X13. Every keyword that [_keywords] returns is made of lower-case
    letters only, has at least three of them, and is no stopword. *)
Theorem keywords_are_lower_case_words (text : string) :
  Forall (fun t => all_chars Text.is_lower t = true /\
                   (3 <= String.length t)%nat /\
                   t ∉ STOPWORDS) (_keywords text).
Proof.
  apply Forall_forall. intros t Hin.
  apply elem_of_keywords in Hin as [Htok Hstop].
  apply elem_of_findall_alpha3 in Htok as [(pre & post & Heq & Halpha & _) Hlen].
  split; [|done].
  pose proof (lower_no_upper text) as Hlow. rewrite Heq in Hlow.
  rewrite !all_chars_app in Hlow.
  apply andb_true_iff in Hlow as [_ Hlow]. apply andb_true_iff in Hlow as [Hlow _].
  rewrite all_alpha_chars in Halpha.
  eapply all_chars_and; [|exact Halpha|exact Hlow].
  intros c. unfold Text.is_alpha. destruct (Text.is_upper c); simpl; done.
Qed.

End GateFacts.

Lemma should_refuse_query_ignores_case_witness :
  Rag.should_refuse_query "WHAT IS BAD FAITH?" None
  = Rag.should_refuse_query "what is Bad Faith?" None.
Proof.
  apply should_refuse_query_ignores_case. reflexivity.
Defined.

Lemma second_gate_repeats_first_witness :
  Rag.should_refuse_query "Compare existentialism to Buddhism"
    (Some [Rag.mkPassage (Float.Num (1 # 2)) "Existentialism compared." "a.pdf" 1]) = true /\
  Rag.should_refuse_query "What is bad faith?"
    (Some [Rag.mkPassage (Float.Num (1 # 2)) "Anguish." "a.pdf" 1])
  = negb (Rag.query_supported_by_context "What is bad faith?"
            [Rag.mkPassage (Float.Num (1 # 2)) "Anguish." "a.pdf" 1]).
Proof.
  split.
  - apply (proj1 (second_gate_repeats_first _)). vm_compute. reflexivity.
  - apply (proj2 (second_gate_repeats_first _)). vm_compute. reflexivity.
Defined.

Lemma support_survives_more_passages_witness :
  Rag.query_supported_by_context "What is bad faith?"
    ([Rag.mkPassage (Float.Num (1 # 2)) "Anguish." "a.pdf" 1] ++
     [Rag.mkPassage (Float.Num (1 # 2)) "Faith is not a refuge." "a.pdf" 3] ++
     [Rag.mkPassage (Float.Num (1 # 3)) "Freedom." "a.pdf" 4]) = true.
Proof.
  apply support_survives_more_passages. vm_compute. reflexivity.
Defined.

(** ** Further properties of the retriever *)

Section RetrieverFacts.
Import Rag Notions.

Lemma rank_sublist (chunks : list Chunk) (neighbours : list (Float.float * Z))
      (results : list Passage) :
  rank chunks neighbours = Ok results ->
  map score results `sublist_of` map fst neighbours.
Proof.
  revert results. induction neighbours as [|[s idx] rest IH]; intros results;
    cbn [rank map fst].
  - intros [= <-]. constructor.
  - destruct (idx =? -1)%Z; [intros H; by apply sublist_cons, IH|].
    destruct (Float.ltb s MIN_SCORE); [intros H; by apply sublist_cons, IH|].
    destruct (py_getitem chunks idx) as [item|e]; [|discriminate].
    destruct (rank chunks rest) as [kept|e]; [|discriminate].
    intros [= <-]. cbn [map score]. by apply sublist_skip, IH.
Qed.

Lemma combine_fst_sublist {A B : Type} (xs : list A) (ys : list B) :
  map fst (combine xs ys) `sublist_of` xs.
Proof.
  revert ys. induction xs as [|x xs IH]; intros [|y ys]; cbn;
    try apply sublist_nil_l. by apply sublist_skip.
Qed.

Lemma descending_sublist (l1 l2 : list Float.float) :
  l1 `sublist_of` l2 -> descending l2 -> descending l1.
Proof.
  unfold descending. induction 1 as [|x l1 l2 Hsub IH|x l1 l2 Hsub IH];
    intros Hsorted.
  - constructor.
  - apply StronglySorted_inv in Hsorted as [Htail Hhead].
    constructor; [by apply IH|].
    apply Forall_forall. intros y Hy. rewrite Forall_forall in Hhead.
    apply Hhead. by eapply elem_of_sublist.
  - apply StronglySorted_inv in Hsorted as [Htail _]. by apply IH.
Qed.

(** X14. The ranked list of [retrieve] follows the search row: the scores
    of the passages are scores of the row in the order of the row, with
    none added, so there are no more passages than row entries and a row
    sorted from the highest score down gives a ranked list sorted the
    same way. *)
Theorem retrieve_keeps_search_order
    (index_search : string -> nat -> list Float.float * list Z) (chunks : list Chunk)
    (query : string) (scores0 : list Float.float) (ids0 : list Z)
    (passages : list Passage) (best : Float.float) :
  index_search query TOP_K = (scores0, ids0) ->
  retrieve index_search chunks query = Ok (passages, best) ->
  map score passages `sublist_of` scores0 /\
  (length passages <= length scores0)%nat /\
  (descending scores0 -> descending (map score passages)).
Proof.
  intros Hsearch. rewrite (retrieve_unfold index_search chunks _ _ _ Hsearch).
  destruct (rank chunks (combine scores0 ids0)) as [results|e] eqn:Hrank;
    [|discriminate].
  intros [= <- _].
  assert (Hsub : map score results `sublist_of` scores0).
  { etrans; [apply (rank_sublist chunks _ _ Hrank) | apply combine_fst_sublist]. }
  split; [exact Hsub|]. split.
  - apply sublist_length in Hsub. by rewrite length_map in Hsub.
  - by apply descending_sublist.
Qed.

Lemma py_getitem_raises {A : Type} (l : list A) (i : Z) (e : Exn) :
  py_getitem l i = Raise e <->
  e = IndexError /\
  ((i < - Z.of_nat (length l))%Z \/ (Z.of_nat (length l) <= i)%Z).
Proof.
  unfold py_getitem. cbv zeta.
  destruct (i <? 0)%Z eqn:Hneg;
    [apply Z.ltb_lt in Hneg | apply Z.ltb_ge in Hneg].
  - destruct ((0 <=? Z.of_nat (length l) + i)%Z
              && (Z.of_nat (length l) + i <? Z.of_nat (length l))%Z) eqn:Hin.
    + apply andb_true_iff in Hin as [Hlo Hhi].
      apply Z.leb_le in Hlo. apply Z.ltb_lt in Hhi.
      destruct (l !! Z.to_nat (Z.of_nat (length l) + i)) eqn:Hl.
      * split; [discriminate | lia].
      * apply lookup_ge_None in Hl. lia.
    + apply andb_false_iff in Hin as [Hlo|Hhi];
        [apply Z.leb_gt in Hlo | apply Z.ltb_ge in Hhi];
        (split; [intros [= <-]; split; [done | lia] | by intros [-> _]]).
  - destruct ((0 <=? i)%Z && (i <? Z.of_nat (length l))%Z) eqn:Hin.
    + apply andb_true_iff in Hin as [Hlo Hhi].
      apply Z.leb_le in Hlo. apply Z.ltb_lt in Hhi.
      destruct (l !! Z.to_nat i) eqn:Hl.
      * split; [discriminate | lia].
      * apply lookup_ge_None in Hl. lia.
    + apply andb_false_iff in Hin as [Hlo|Hhi];
        [apply Z.leb_gt in Hlo | apply Z.ltb_ge in Hhi];
        (split; [intros [= <-]; split; [done | lia] | by intros [-> _]]).
Qed.

Lemma py_getitem_returns {A : Type} (l : list A) (i : Z) (x : A) :
  py_getitem l i = Ok x <->
  (- Z.of_nat (length l) <= i < Z.of_nat (length l))%Z /\
  l !! Z.to_nat (if (i <? 0)%Z then Z.of_nat (length l) + i else i) = Some x.
Proof.
  unfold py_getitem. cbv zeta.
  destruct (i <? 0)%Z eqn:Hneg;
    [apply Z.ltb_lt in Hneg | apply Z.ltb_ge in Hneg].
  - destruct ((0 <=? Z.of_nat (length l) + i)%Z
              && (Z.of_nat (length l) + i <? Z.of_nat (length l))%Z) eqn:Hin.
    + apply andb_true_iff in Hin as [Hlo Hhi].
      apply Z.leb_le in Hlo. apply Z.ltb_lt in Hhi.
      destruct (l !! Z.to_nat (Z.of_nat (length l) + i)) eqn:Hl.
      * split; [intros [= ->]; split; [lia | done] | by intros [_ [= ->]]].
      * split; [discriminate | by intros [_ ?]].
    + apply andb_false_iff in Hin as [Hlo|Hhi];
        [apply Z.leb_gt in Hlo | apply Z.ltb_ge in Hhi];
        (split; [discriminate | intros [? _]; lia]).
  - destruct ((0 <=? i)%Z && (i <? Z.of_nat (length l))%Z) eqn:Hin.
    + apply andb_true_iff in Hin as [Hlo Hhi].
      apply Z.leb_le in Hlo. apply Z.ltb_lt in Hhi.
      destruct (l !! Z.to_nat i) eqn:Hl.
      * split; [intros [= ->]; split; [lia | done] | by intros [_ [= ->]]].
      * split; [discriminate | by intros [_ ?]].
    + apply andb_false_iff in Hin as [Hlo|Hhi];
        [apply Z.leb_gt in Hlo | apply Z.ltb_ge in Hhi];
        (split; [discriminate | intros [? _]; lia]).
Qed.

Lemma rank_raises (chunks : list Chunk) (neighbours : list (Float.float * Z)) :
  forall e,
    rank chunks neighbours = Raise e <->
    e = IndexError /\
    exists n, n ∈ neighbours /\ strong_neighbour n /\
              py_getitem chunks (snd n) = Raise IndexError.
Proof.
  unfold strong_neighbour.
  induction neighbours as [|[s idx] rest IH]; intros e; cbn [rank].
  - split; [discriminate|]. intros (_ & n & Hin & _). by apply elem_of_nil in Hin.
  - assert (Hskip :
              ~ (idx <> (-1)%Z /\ (s = Float.NaN \/ Float.le MIN_SCORE s)) ->
              (rank chunks rest = Raise e <->
               e = IndexError /\
               exists n, n ∈ (s, idx) :: rest /\
                 (snd n <> (-1)%Z /\
                  (fst n = Float.NaN \/ Float.le MIN_SCORE (fst n))) /\
                 py_getitem chunks (snd n) = Raise IndexError)).
    { intros Hweak. rewrite IH. split; intros (-> & n & Hin & Hn & Hget);
        (split; [done|]); exists n.
      - split; [by right | done].
      - apply elem_of_cons in Hin as [->|Hin]; [by destruct Hweak | done]. }
    destruct (idx =? -1)%Z eqn:Hidx.
    { apply Hskip. apply Z.eqb_eq in Hidx. intros [? _]. done. }
    apply Z.eqb_neq in Hidx.
    destruct (Float.ltb s MIN_SCORE) eqn:Hs.
    { apply Hskip. intros [_ Hkept]. apply below_floor_false in Hkept.
      congruence. }
    apply below_floor_false in Hs. clear Hskip.
    destruct (py_getitem chunks idx) as [item|e'] eqn:Hget.
    + destruct (rank chunks rest) as [kept|e''].
      * split; [discriminate|]. intros (-> & n & Hin & Hn & Hraise).
        apply elem_of_cons in Hin as [->|Hin]; [cbn in Hraise; congruence|].
        assert (Hfalse : @Ok (list Passage) kept = Raise IndexError)
          by (apply IH; eauto). discriminate.
      * destruct (proj1 (IH e'') eq_refl) as (-> & n & Hin & Hn). split.
        -- intros [= <-]. split; [done|]. exists n. split; [by right | done].
        -- by intros (-> & _).
    + assert (e' = IndexError) as ->
        by (by apply py_getitem_raises in Hget as [-> _]).
      split.
      * intros [= <-]. split; [done|]. exists (s, idx). split; [by left|]. done.
      * by intros (-> & _).
Qed.

(** X15. [retrieve] raises IndexError exactly when the row has a
    neighbour that is looked up in the passage store and whose position
    is outside the store. A neighbour is looked up when it is not marked
    missing and its score is not below the threshold: at least the
    threshold, or NaN. A neighbour that is missing or below the
    threshold is never looked up, whatever its position. *)
Theorem retrieve_raises_on_position_outside_store
    (index_search : string -> nat -> list Float.float * list Z) (chunks : list Chunk)
    (query : string) (scores0 : list Float.float) (ids0 : list Z) :
  index_search query TOP_K = (scores0, ids0) ->
  (retrieve index_search chunks query = Raise IndexError <->
   exists s idx,
     (s, idx) ∈ combine scores0 ids0 /\
     idx <> (-1)%Z /\ (s = Float.NaN \/ Float.le MIN_SCORE s) /\
     ((idx < - Z.of_nat (length chunks))%Z \/ (Z.of_nat (length chunks) <= idx)%Z)).
Proof.
  intros Hsearch. rewrite (retrieve_unfold index_search chunks _ _ _ Hsearch).
  assert (Hrank : rank chunks (combine scores0 ids0) = Raise IndexError <->
    match rank chunks (combine scores0 ids0) with
    | Raise e0 => Raise e0
    | Ok results =>
        @Ok (list Passage * Float.float)
            (results, match scores0 with s :: _ => s | [] => Float.Num 0 end)
    end = Raise IndexError).
  { destruct (rank chunks (combine scores0 ids0)); split; congruence. }
  rewrite <- Hrank, rank_raises. unfold strong_neighbour. split.
  - intros (_ & [s idx] & Hin & [Hidx Hs] & Hget).
    exists s, idx. apply py_getitem_raises in Hget as [_ Hout]. done.
  - intros (s & idx & Hin & Hidx & Hs & Hout). split; [done|].
    exists (s, idx). split; [done|]. split; [done|].
    by apply py_getitem_raises.
Qed.

(** X16. Every passage of the ranked list carries the score of a
    neighbour of the search row and the text, source and page of the
    record of the passage store at that neighbour's position; a negative
    position other than -1 counts from the end of the store. *)
Theorem retrieve_passages_come_from_store
    (index_search : string -> nat -> list Float.float * list Z) (chunks : list Chunk)
    (query : string) (scores0 : list Float.float) (ids0 : list Z)
    (passages : list Passage) (best : Float.float) :
  index_search query TOP_K = (scores0, ids0) ->
  retrieve index_search chunks query = Ok (passages, best) ->
  Forall (fun p =>
            exists idx item,
              (score p, idx) ∈ combine scores0 ids0 /\
              idx <> (-1)%Z /\
              (- Z.of_nat (length chunks) <= idx < Z.of_nat (length chunks))%Z /\
              chunks !! Z.to_nat (if (idx <? 0)%Z
                                  then Z.of_nat (length chunks) + idx else idx)
                = Some item /\
              chunk p = c_chunk item /\ source p = c_source item /\
              page p = c_page item) passages.
Proof.
  intros Hsearch. rewrite (retrieve_unfold index_search chunks _ _ _ Hsearch).
  destruct (rank chunks (combine scores0 ids0)) as [results|e] eqn:Hrank;
    [|discriminate].
  intros [= <- _]. eapply Forall_impl; [by apply rank_from_neighbours|].
  intros p (idx & item & Hin & Hidx & Hget & Hrest). cbn beta in *.
  apply py_getitem_returns in Hget as [Hrange Hlook].
  exists idx, item. done.
Qed.

(** X17. When the search row is sorted from the highest score down, the
    two tests of the score gate agree: whenever the ranked list is not
    empty the best score is not below the threshold, so the gate passes
    exactly when a passage was kept. A NaN is in order with no other
    score: a sorted row that holds one is that one score, which is then
    the best score and passes the test of the gate as it passed the test
    of the loop. *)
Theorem sorted_row_score_gate
    (index_search : string -> nat -> list Float.float * list Z) (chunks : list Chunk)
    (query : string) (scores0 : list Float.float) (ids0 : list Z)
    (passages : list Passage) (best : Float.float) :
  index_search query TOP_K = (scores0, ids0) ->
  descending scores0 ->
  retrieve index_search chunks query = Ok (passages, best) ->
  (Gates.score_gate_passes passages best <-> passages <> []) /\
  (passages <> [] -> Float.ltb best MIN_SCORE = false) /\
  (passages <> [] -> best <> Float.NaN -> Float.le MIN_SCORE best).
Proof.
  intros Hsearch Hsorted Hret.
  pose proof Hret as Hret'.
  rewrite (retrieve_unfold index_search chunks _ _ _ Hsearch) in Hret'.
  destruct (rank chunks (combine scores0 ids0)) as [results|e] eqn:Hrank;
    [|discriminate].
  injection Hret' as <- <-.
  assert (Hbest : results <> [] ->
            match scores0 with s :: _ => s | [] => Float.Num 0 end = Float.NaN \/
            Float.le MIN_SCORE
              match scores0 with s :: _ => s | [] => Float.Num 0 end).
  { intros Hne. destruct results as [|p results]; [done|].
    assert (Hfloor : score p = Float.NaN \/ Float.le MIN_SCORE (score p)).
    { apply rank_scores in Hrank. by apply Forall_cons in Hrank as [? _]. }
    assert (Hin : score p ∈ scores0).
    { eapply elem_of_sublist;
        [|etrans; [apply (rank_sublist chunks _ _ Hrank) | apply combine_fst_sublist]].
      cbn. by left. }
    destruct scores0 as [|top others]; [by apply elem_of_nil in Hin|].
    apply elem_of_cons in Hin as [<-|Hin]; [done|].
    apply StronglySorted_inv in Hsorted as [_ Hhead].
    rewrite Forall_forall in Hhead. apply Hhead in Hin.
    destruct Hfloor as [Hnan|Hfloor].
    - rewrite Hnan in Hin. by apply float_le_not_nan in Hin as [? _].
    - right. by eapply float_le_trans. }
  unfold Gates.score_gate_passes. split; [|split].
  - split; [tauto|]. intros Hne. split; [by apply Hbest | done].
  - intros Hne. by apply below_floor_false, Hbest.
  - intros Hne Hnum. by destruct (Hbest Hne).
Qed.

End RetrieverFacts.

Section RetrieverWitnesses.
Import Rag Notions Scenario.

Lemma strong_row_descending : descending [Float.Num (3 # 4); Float.Num (1 # 10)].
Proof.
  unfold descending. repeat constructor. cbn. unfold Qle. simpl. lia.
Qed.

Lemma retrieve_keeps_search_order_witness :
  map score [kept_passage] `sublist_of` [Float.Num (3 # 4); Float.Num (1 # 10)] /\
  (length [kept_passage] <= length [Float.Num (3 # 4); Float.Num (1 # 10)])%nat /\
  (descending [Float.Num (3 # 4); Float.Num (1 # 10)] -> descending (map score [kept_passage])).
Proof.
  apply (retrieve_keeps_search_order strong_search corpus sartre_query
           [Float.Num (3 # 4); Float.Num (1 # 10)] [0; 1]%Z [kept_passage] (Float.Num (3 # 4)));
    vm_compute; reflexivity.
Defined.

(** A strong neighbour whose position is past the end of the store, and
    a neighbour with a NaN score whose position is before its start. *)
Lemma retrieve_raises_on_position_outside_store_witness :
  retrieve (fun _ _ => ([Float.Num (1 # 10); Float.Num (1 # 2)], [9; 7]%Z))
           corpus sartre_query = Raise IndexError /\
  retrieve (fun _ _ => ([Float.NaN], [(-3)%Z])) corpus sartre_query
  = Raise IndexError.
Proof.
  split.
  - apply (proj2 (retrieve_raises_on_position_outside_store
                    (fun _ _ => ([Float.Num (1 # 10); Float.Num (1 # 2)], [9; 7]%Z))
                    corpus sartre_query
                    [Float.Num (1 # 10); Float.Num (1 # 2)] [9; 7]%Z eq_refl)).
    exists (Float.Num (1 # 2)), 7%Z.
    split; [cbn; set_solver|]. split; [discriminate|].
    split; [right; cbn; unfold Qle; simpl; lia | right; simpl; lia].
  - apply (proj2 (retrieve_raises_on_position_outside_store
                    (fun _ _ => ([Float.NaN], [(-3)%Z])) corpus sartre_query
                    [Float.NaN] [(-3)%Z] eq_refl)).
    exists Float.NaN, (-3)%Z.
    split; [cbn; set_solver|]. split; [discriminate|].
    split; [by left | left; simpl; lia].
Defined.

(** A position of -2 is the record before the last one. *)
Lemma retrieve_passages_come_from_store_witness :
  Forall (fun p =>
            exists idx item,
              (score p, idx) ∈ combine [Float.Num (3 # 4)] [(-2)%Z] /\
              idx <> (-1)%Z /\
              (- Z.of_nat (length corpus) <= idx < Z.of_nat (length corpus))%Z /\
              corpus !! Z.to_nat (if (idx <? 0)%Z
                                  then Z.of_nat (length corpus) + idx else idx)
                = Some item /\
              chunk p = c_chunk item /\ source p = c_source item /\
              page p = c_page item) [kept_passage].
Proof.
  apply (retrieve_passages_come_from_store (fun _ _ => ([Float.Num (3 # 4)], [(-2)%Z]))
           corpus sartre_query [Float.Num (3 # 4)] [(-2)%Z] [kept_passage] (Float.Num (3 # 4)));
    vm_compute; reflexivity.
Defined.

(** A sorted row of two numbers, and the sorted row of one NaN. *)
Lemma sorted_row_score_gate_witness :
  ((Gates.score_gate_passes [kept_passage] (Float.Num (3 # 4))
    <-> [kept_passage] <> []) /\
   ([kept_passage] <> [] -> Float.ltb (Float.Num (3 # 4)) MIN_SCORE = false) /\
   ([kept_passage] <> [] -> Float.Num (3 # 4) <> Float.NaN ->
    Float.le MIN_SCORE (Float.Num (3 # 4)))) /\
  ((Gates.score_gate_passes [nan_passage] Float.NaN <-> [nan_passage] <> []) /\
   ([nan_passage] <> [] -> Float.ltb Float.NaN MIN_SCORE = false) /\
   ([nan_passage] <> [] -> Float.NaN <> Float.NaN ->
    Float.le MIN_SCORE Float.NaN)).
Proof.
  split.
  - apply (sorted_row_score_gate strong_search corpus sartre_query
             [Float.Num (3 # 4); Float.Num (1 # 10)] [0; 1]%Z [kept_passage]
             (Float.Num (3 # 4))).
    + reflexivity.
    + apply strong_row_descending.
    + vm_compute. reflexivity.
  - apply (sorted_row_score_gate nan_search corpus sartre_query
             [Float.NaN] [0%Z] [nan_passage] Float.NaN).
    + reflexivity.
    + unfold descending. repeat constructor.
    + vm_compute. reflexivity.
Defined.

End RetrieverWitnesses.

(** ** Further properties of the context assembler *)

Section ContextFacts.
Import Rag Notions.

Lemma total_length_app (xs ys : list string) :
  Text.total_length (xs ++ ys) = (Text.total_length xs + Text.total_length ys)%nat.
Proof.
  unfold Text.total_length. induction xs as [|x xs IH]; cbn [app foldr]; lia.
Qed.

(** The loop keeps the snippets of the first [k] passages, and stops at
    passage [k] because its snippet does not fit any more. *)
Lemma context_parts_prefix (passages : list Passage) :
  forall total,
    exists k : nat,
      (k <= length passages)%nat /\
      context_parts passages total = map snippet (take k passages) /\
      (forall p, passages !! k = Some p ->
         (MAX_CONTEXT_CHARS <
          total + Text.total_length (map snippet (take k passages))
          + String.length (snippet p))%nat).
Proof.
  induction passages as [|p rest IH]; intros total; cbn [context_parts].
  - exists 0%nat. split; [done|]. split; [done|]. intros p Hp. done.
  - cbv zeta.
    destruct (MAX_CONTEXT_CHARS <? total + String.length (snippet p))%nat eqn:Hover.
    + apply Nat.ltb_lt in Hover. exists 0%nat. cbn [take map length].
      split; [lia|]. split; [done|]. intros p' [= <-].
      unfold Text.total_length. cbn [foldr]. lia.
    + destruct (IH (total + String.length (snippet p))%nat)
        as (k & Hk & Hparts & Hstop).
      exists (S k). cbn [take map length]. split; [lia|].
      split; [by rewrite Hparts|].
      intros p' Hp'. cbn in Hp'. specialize (Hstop p' Hp').
      unfold Text.total_length in *. cbn [foldr]. lia.
Qed.

(** X18. [build_context] keeps whole snippets of a first stretch of the
    ranked passages, in rank order: the snippets of the first [k]
    passages, whose characters together stay within the budget, and it
    stops at passage [k] because that snippet would pass the budget;
    nothing after it is added, even if it would fit. *)
Theorem build_context_keeps_first_passages (passages : list Passage) :
  exists k : nat,
    (k <= length passages)%nat /\
    build_context passages
    = Text.join (Text.newline ++ Text.newline) (map snippet (take k passages)) /\
    (Text.total_length (map snippet (take k passages)) <= MAX_CONTEXT_CHARS)%nat /\
    (forall p, passages !! k = Some p ->
       (MAX_CONTEXT_CHARS <
        Text.total_length (map snippet (take k passages))
        + String.length (snippet p))%nat).
Proof.
  destruct (context_parts_prefix passages 0) as (k & Hk & Hparts & Hstop).
  exists k. split; [exact Hk|]. unfold build_context. rewrite Hparts.
  split; [reflexivity|]. split.
  - rewrite <- Hparts.
    pose proof (context_parts_within_budget passages 0) as Hb.
    cbn [Nat.add] in Hb. apply Hb. unfold MAX_CONTEXT_CHARS. lia.
  - intros p Hp. specialize (Hstop p Hp). lia.
Qed.

(** X19. The text [build_context] returns has at most the budget plus
    two characters for each separator: for [n] ranked passages, at most
    3000 + 2 * (n - 1) characters. *)
Theorem build_context_length_bound (passages : list Passage) :
  (String.length (build_context passages)
   <= 3000 + 2 * (length passages - 1))%nat.
Proof.
  unfold build_context. rewrite join_length.
  pose proof (context_parts_within_budget passages 0) as Hbudget.
  pose proof (context_parts_count passages 0) as Hcount.
  change (String.length (Text.newline ++ Text.newline)) with 2%nat.
  unfold MAX_CONTEXT_CHARS in Hbudget. cbn [Nat.add] in Hbudget.
  specialize (Hbudget ltac:(lia)). lia.
Qed.

(** X20. When the snippets of all passages fit the budget together, the
    context holds every one of them, joined by blank lines. *)
Theorem build_context_keeps_all_that_fit (passages : list Passage) :
  (Text.total_length (map snippet passages) <= MAX_CONTEXT_CHARS)%nat ->
  build_context passages
  = Text.join (Text.newline ++ Text.newline) (map snippet passages).
Proof.
  intros Hfit.
  destruct (context_parts_prefix passages 0) as (k & Hk & Hparts & Hstop).
  unfold build_context. rewrite Hparts.
  destruct (decide (k = length passages)) as [->|Hless];
    [by rewrite firstn_all|].
  exfalso. destruct (lookup_lt_is_Some_2 passages k) as [p Hp]; [lia|].
  specialize (Hstop p Hp).
  rewrite <- (take_drop_middle passages k p Hp) in Hfit.
  rewrite map_app, total_length_app in Hfit. cbn [map] in Hfit.
  unfold Text.total_length in Hfit at 2. cbn [foldr] in Hfit. lia.
Qed.

(** X21. When the snippet of the first passage alone is longer than the
    budget, the context is empty, whatever follows. *)
Theorem build_context_first_snippet_too_long
    (p : Passage) (rest : list Passage) :
  (MAX_CONTEXT_CHARS < String.length (snippet p))%nat ->
  build_context (p :: rest) = "".
Proof.
  intros Hlong. unfold build_context. cbn [context_parts]. cbv zeta.
  apply Nat.ltb_lt in Hlong. cbn [Nat.add]. by rewrite Hlong.
Qed.

End ContextFacts.

Lemma build_context_keeps_all_that_fit_witness :
  Rag.build_context [Scenario.kept_passage; Scenario.kept_passage]
  = Text.join (Text.newline ++ Text.newline)
      (map Rag.snippet [Scenario.kept_passage; Scenario.kept_passage]).
Proof.
  apply build_context_keeps_all_that_fit. vm_compute. lia.
Defined.

Lemma build_context_first_snippet_too_long_witness :
  Rag.build_context
    [Rag.mkPassage (Float.Num (1 # 2)) (Scenario.repeat_string 3000 "a") "a.pdf" 1;
     Scenario.kept_passage] = "".
Proof.
  apply build_context_first_snippet_too_long.
  apply Nat.ltb_lt. vm_compute. reflexivity.
Defined.

(** ** Further properties of the generation call and of the handler *)

Section StripFacts.

Lemma lstrip_head (s : string) :
  Text.lstrip s = "" \/
  exists c r, Text.lstrip s = String c r /\ Text.is_space c = false.
Proof.
  induction s as [|c s IH]; [by left|]. simpl.
  destruct (Text.is_space c) eqn:Hc; [exact IH|]. right. eauto.
Qed.

Lemma rstrip_head (c : ascii) (r : string) :
  Text.is_space c = false -> exists r', Text.rstrip (String c r) = String c r'.
Proof.
  intros Hc. simpl. rewrite Hc. destruct (Text.rstrip r); eauto.
Qed.

Lemma rstrip_cons (c : ascii) (s : string) :
  Text.rstrip (String c s) =
  match Text.rstrip s with
  | EmptyString => if Text.is_space c then EmptyString else String c EmptyString
  | r => String c r
  end.
Proof. reflexivity. Qed.

Lemma rstrip_rstrip (s : string) : Text.rstrip (Text.rstrip s) = Text.rstrip s.
Proof.
  induction s as [|c s IH]; [reflexivity|]. rewrite (rstrip_cons c s).
  destruct (Text.rstrip s) as [|d r] eqn:Hr.
  - destruct (Text.is_space c) eqn:Hc; [reflexivity|].
    rewrite rstrip_cons. cbn [Text.rstrip]. by rewrite Hc.
  - rewrite rstrip_cons, IH. reflexivity.
Qed.

(** Stripping a stripped string changes nothing. *)
Lemma strip_strip (s : string) : Text.strip (Text.strip s) = Text.strip s.
Proof.
  unfold Text.strip.
  destruct (lstrip_head s) as [->|(c & r & -> & Hc)]; [reflexivity|].
  destruct (rstrip_head c r Hc) as [r' Hr']. rewrite Hr'.
  cbn [Text.lstrip]. rewrite Hc, <- Hr'. apply rstrip_rstrip.
Qed.

End StripFacts.

Section HandlerFacts.
Import Rag App Gates Notions.

Variable index_search : string -> nat -> list Float.float * list Z.
Variable chunks : list Chunk.
Variable OLLAMA_URL : string.
Variable OLLAMA_MODEL : string.
Variable requests_post : string -> Payload -> nat -> result Response.
Variable raise_for_status : Response -> option Exn.

Local Abbreviation retrieve := (Rag.retrieve index_search chunks).
Local Abbreviation generate_answer :=
  (Rag.generate_answer OLLAMA_URL OLLAMA_MODEL requests_post raise_for_status).
Local Abbreviation pipeline :=
  (App.pipeline index_search chunks OLLAMA_URL OLLAMA_MODEL requests_post
                raise_for_status).
Local Abbreviation ask :=
  (App.ask index_search chunks OLLAMA_URL OLLAMA_MODEL requests_post
           raise_for_status).

Lemma generate_answer_stripped (query context answer : string) :
  generate_answer query context = Ok answer -> Text.strip answer = answer.
Proof.
  unfold Rag.generate_answer. cbv zeta.
  destruct (requests_post _ _ _) as [r|e]; [|discriminate].
  destruct (raise_for_status r) as [e|]; [discriminate|].
  destruct (json r) as [body|]; [|discriminate].
  destruct (body !! "response") as [[text|]|]; try discriminate.
  intros [= <-]. apply strip_strip.
Qed.

(** X22. [generate_answer] returns only for a response that
    [raise_for_status] accepts and whose JSON body has a string under
    "response"; what it returns is that string stripped, so an answer
    never has whitespace at either end. *)
Theorem generate_answer_returns_stripped_response
    (query context answer : string) :
  generate_answer query context = Ok answer ->
  (exists r body text,
     requests_post OLLAMA_URL
       {| model := OLLAMA_MODEL; prompt := build_prompt query context;
          stream := false |} 120%nat = Ok r /\
     raise_for_status r = None /\
     json r = Some body /\
     body !! "response" = Some (JString text) /\
     answer = Text.strip text) /\
  Text.strip answer = answer.
Proof.
  unfold Rag.generate_answer. cbv zeta.
  destruct (requests_post _ _ _) as [r|e] eqn:Hpost; [|discriminate].
  destruct (raise_for_status r) as [e|] eqn:Hstatus; [discriminate|].
  destruct (json r) as [body|] eqn:Hjson; [|discriminate].
  destruct (body !! "response") as [[text|]|] eqn:Hkey; try discriminate.
  intros [= <-]. split; [|apply strip_strip].
  exists r, body, text. done.
Qed.

Lemma refusal_text_stripped : Text.strip REFUSAL_TEXT = REFUSAL_TEXT.
Proof. vm_compute. reflexivity. Qed.

(** X23. After the three local gates, the self-refusal check is an exact
    match on what the generator returned: the run is refused when the
    answer is [REFUSAL_TEXT] itself and answered with it when it is any
    other text. *)
Theorem self_refusal_is_exact_match
    (query : string) (passages : list Passage) (best : Float.float) (answer : string) :
  topic_gate_passes query ->
  retrieve query = Ok (passages, best) ->
  score_gate_passes passages best ->
  support_gate_passes query passages ->
  generate_answer query (build_context passages) = Ok answer ->
  (answer = REFUSAL_TEXT -> refused (pipeline query)) /\
  (answer <> REFUSAL_TEXT -> answered (pipeline query) answer).
Proof.
  intros Htopic Hret Hscore Hsupport Hgen.
  pose proof (generate_answer_stripped _ _ _ Hgen) as Hstrip.
  split; intros Hans.
  - eapply pipeline_refused_later; [exact Hret|]. right. right.
    exists answer. split; [exact Hgen|]. intros Hpass. apply Hpass. by subst.
  - eapply pipeline_answers; eauto.
    unfold self_refusal_gate_passes. by rewrite Hstrip, refusal_text_stripped.
Qed.

(** X24. When all four gates pass, the run is answered whatever the
    number of passages: it shows the answer of the generator, then the
    retrieved passages as sources, then the very context that was sent to
    the generator, and shows no refusal. *)
Theorem four_gates_suffice
    (query : string) (passages : list Passage) (best : Float.float) (answer : string) :
  topic_gate_passes query ->
  retrieve query = Ok (passages, best) ->
  score_gate_passes passages best ->
  support_gate_passes query passages ->
  generate_answer query (build_context passages) = Ok answer ->
  self_refusal_gate_passes answer ->
  pipeline query =
    ([Call_should_refuse_query query None; Call_retrieve query;
      St_write_scores best MIN_SCORE;
      Call_should_refuse_query query (Some passages);
      Call_build_context passages;
      Call_generate_answer query (build_context passages);
      St_answer answer; St_sources passages;
      St_context (build_context passages)], Done tt) /\
  answered (pipeline query) answer.
Proof.
  intros Htopic Hret Hscore Hsupport Hgen Hself.
  destruct (pipeline_answers index_search chunks OLLAMA_URL OLLAMA_MODEL
              requests_post raise_for_status query passages best answer)
    as [Hrun Hans]; auto.
Qed.

Lemma run_cases (query : string) :
  refused (pipeline query) \/
  (exists answer, answered (pipeline query) answer) \/
  (exists e, ends (pipeline query) = Failed e /\
             (retrieve query = Raise e \/
              exists passages best,
                retrieve query = Ok (passages, best) /\
                generate_answer query (build_context passages) = Raise e) /\
             (forall msg, St_error msg ∉ trace (pipeline query)) /\
             (forall a, St_answer a ∉ trace (pipeline query))).
Proof.
  destruct (should_refuse_query query None) eqn:Htopic.
  { left. by apply pipeline_refused_topic. }
  destruct (retrieve query) as [[passages best]|e] eqn:Hret.
  2:{ right. right. exists e. rewrite pipeline_run, Htopic, Hret.
      unfold ends, trace. cbn [fst snd]. split; [done|]. split; [by left|].
      split; intros x; event_solver. }
  destruct (Float.ltb best MIN_SCORE || (length passages =? 0)%nat) eqn:Hscore.
  { left. eapply pipeline_refused_later; [exact Hret|]. left.
    intros Hpass. apply score_gate_decides in Hpass. congruence. }
  apply score_gate_decides in Hscore.
  destruct (query_supported_by_context query passages) eqn:Hsupport.
  2:{ left. eapply pipeline_refused_later; [exact Hret|]. right. left.
      unfold support_gate_passes. congruence. }
  destruct (generate_answer query (build_context passages)) as [answer|e] eqn:Hgen.
  2:{ right. right. exists e. rewrite pipeline_run, Htopic, Hret.
      apply score_gate_decides in Hscore. rewrite Hscore.
      rewrite (proj2 (support_gate_decides index_search OLLAMA_URL requests_post
                        query passages) (conj Htopic Hsupport)).
      rewrite Hgen. unfold ends, trace. cbn [fst snd]. split; [done|].
      split; [right; eauto|].
      split; intros x; event_solver. }
  destruct (String.eqb (Text.strip answer) (Text.strip REFUSAL_TEXT)) eqn:Hself.
  - left. eapply pipeline_refused_later; [exact Hret|]. right. right.
    exists answer. split; [exact Hgen|]. intros Hpass.
    apply self_refusal_decides in Hpass. congruence.
  - apply self_refusal_decides in Hself.
    right. left. exists answer. by eapply pipeline_answers.
Qed.

(** X25. Every run of the pipeline ends in exactly one of three ways: it
    is refused, it is answered, or it is left by an exception of the
    retrieval or of the generation call, and then neither a refusal nor
    an answer is shown. *)
Theorem run_refused_answered_or_failed (query : string) :
  (refused (pipeline query) \/
   (exists answer, answered (pipeline query) answer) \/
   (exists e, ends (pipeline query) = Failed e /\
              (retrieve query = Raise e \/
               exists passages best,
                 retrieve query = Ok (passages, best) /\
                 generate_answer query (build_context passages) = Raise e) /\
              (forall msg, St_error msg ∉ trace (pipeline query)) /\
              (forall a, St_answer a ∉ trace (pipeline query)))) /\
  (refused (pipeline query) -> forall answer, ~ answered (pipeline query) answer) /\
  (forall e, ends (pipeline query) = Failed e ->
     ~ refused (pipeline query) /\
     forall answer, ~ answered (pipeline query) answer).
Proof.
  split; [apply run_cases|]. split.
  - intros (Hstop & _) answer (Hdone & _). congruence.
  - intros e Hfail. split.
    + intros (Hstop & _). congruence.
    + intros answer (Hdone & _). congruence.
Qed.

(** X26. The later stages run only behind the earlier gates: [retrieve]
    is called only for a query that passed the topic gate, and the
    generator is called only with the query itself and the context built
    from passages that passed the score gate (a list that is not empty,
    with a best score that is not below the threshold: at least the
    threshold, or NaN) and the support gate. *)
Theorem later_stages_only_behind_gates (query : string) :
  (forall q, Call_retrieve q ∈ trace (pipeline query) ->
     q = query /\ topic_gate_passes query) /\
  (forall q context, Call_generate_answer q context ∈ trace (pipeline query) ->
     q = query /\ topic_gate_passes query /\
     exists passages best,
       retrieve query = Ok (passages, best) /\
       score_gate_passes passages best /\
       support_gate_passes query passages /\
       context = build_context passages).
Proof.
  rewrite pipeline_run. unfold trace.
  destruct (should_refuse_query query None) eqn:Htopic.
  { cbn [fst]. split; [intros q|intros q context]; event_solver. }
  destruct (retrieve query) as [[passages best]|e] eqn:Hret.
  2:{ cbn [fst]. split; [intros q|intros q context]; event_solver. }
  destruct (Float.ltb best MIN_SCORE || (length passages =? 0)%nat) eqn:Hscore.
  { cbn [fst]. split; [intros q|intros q context]; event_solver. }
  apply score_gate_decides in Hscore.
  destruct (should_refuse_query query (Some passages)) eqn:Hsupport.
  { cbn [fst]. split; [intros q|intros q context]; event_solver. }
  apply (support_gate_decides index_search OLLAMA_URL requests_post)
    in Hsupport as [_ Hsupport].
  assert (Hgenerate : forall q context tail,
    Call_generate_answer q context ∈ upto_generate query passages best ++ tail ->
    (forall q' c', Call_generate_answer q' c' ∉ tail) ->
    q = query /\ topic_gate_passes query /\
    exists passages0 best0,
      Ok (passages, best) = Ok (passages0, best0) /\
      score_gate_passes passages0 best0 /\
      support_gate_passes query passages0 /\
      context = build_context passages0).
  { intros q context tail Hin Htail.
    apply elem_of_app in Hin as [Hin|Hin]; [|by apply Htail in Hin].
    assert (q = query /\ context = build_context passages) as [-> ->]
      by (revert Hin; event_solver).
    split; [done|]. split; [exact Htopic|]. exists passages, best. done. }
  assert (Hretrieve : forall q tail,
    Call_retrieve q ∈ upto_generate query passages best ++ tail ->
    (forall q', Call_retrieve q' ∉ tail) ->
    q = query /\ topic_gate_passes query).
  { intros q tail Hin Htail.
    apply elem_of_app in Hin as [Hin|Hin]; [|by apply Htail in Hin].
    split; [revert Hin; event_solver | exact Htopic]. }
  destruct (generate_answer query (build_context passages)) as [answer|e].
  - destruct (String.eqb (Text.strip answer) (Text.strip REFUSAL_TEXT));
      cbn [fst]; (split; [intros q Hin|intros q context Hin]).
    + eapply Hretrieve; [exact Hin|]. intros q'. event_solver.
    + eapply Hgenerate; [exact Hin|]. intros q' c'. event_solver.
    + eapply Hretrieve; [exact Hin|]. intros q'. event_solver.
    + eapply Hgenerate; [exact Hin|]. intros q' c'. event_solver.
  - cbn [fst]. split; [intros q Hin|intros q context Hin].
    + apply (Hretrieve q []); [by rewrite app_nil_r|]. intros q'. event_solver.
    + apply (Hgenerate q context []); [by rewrite app_nil_r|].
      intros q' c'. event_solver.
Qed.

(** X27. The only message a run ever shows as an error is the canonical
    refusal text, whichever gate fired, and a run that shows it stops
    there. *)
Theorem only_the_refusal_text_is_shown
    (query : string) (msg : string) :
  St_error msg ∈ trace (pipeline query) ->
  msg = REFUSAL_TEXT /\ refused (pipeline query).
Proof.
  rewrite pipeline_run. unfold trace.
  destruct (should_refuse_query query None).
  { cbn [fst]. intros Hin. split; [revert Hin; event_solver|].
    apply (refused_after [Call_should_refuse_query query None]).
    intros a. event_solver. }
  destruct (retrieve query) as [[passages best]|e'];
    [|cbn [fst]; intros Hin; exfalso; revert Hin; event_solver].
  destruct (Float.ltb best MIN_SCORE || (length passages =? 0)%nat).
  { cbn [fst]. intros Hin. split; [revert Hin; event_solver|].
    apply refused_after. intros a. event_solver. }
  destruct (should_refuse_query query (Some passages)).
  { cbn [fst]. intros Hin. split; [revert Hin; event_solver|].
    apply refused_after. intros a. event_solver. }
  destruct (generate_answer query (build_context passages)) as [answer|e'];
    [|cbn [fst]; intros Hin; exfalso; revert Hin; event_solver].
  destruct (String.eqb (Text.strip answer) (Text.strip REFUSAL_TEXT)).
  - cbn [fst]. intros Hin. split; [revert Hin; event_solver|].
    apply refused_after. intros a. event_solver.
  - cbn [fst]. intros Hin. exfalso. revert Hin. event_solver.
Qed.

(** X28. An exception of [retrieve] leaves the run as it is: after the
    topic gate nothing is shown, neither a score nor a refusal. *)
Theorem retrieval_fault_propagates (query : string) (e : Exn) :
  topic_gate_passes query ->
  retrieve query = Raise e ->
  pipeline query =
    ([Call_should_refuse_query query None; Call_retrieve query], Failed e) /\
  ~ refused (pipeline query).
Proof.
  intros Htopic Hret. rewrite pipeline_run, Htopic, Hret.
  split; [reflexivity|]. intros (Hstop & _). discriminate.
Qed.

(** X29. The handler does nothing at all (no call, nothing shown) without
    a click or for a query of whitespace only, and runs the pipeline,
    which starts with the topic gate, in every other case. *)
Theorem ask_needs_click_and_text (clicked : bool) (query : string) :
  (clicked = false \/ all_chars Text.is_space query = true ->
   ask clicked query = ([], Done tt)) /\
  (clicked = true -> all_chars Text.is_space query = false ->
   ask clicked query = pipeline query /\
   head (trace (ask clicked query)) = Some (Call_should_refuse_query query None)).
Proof.
  split.
  - intros [->|Hblank]; [reflexivity|].
    apply strip_nil_blank in Hblank. by apply ask_blank.
  - intros -> Htext.
    assert (Hq : Text.strip query <> "").
    { intros Hnil. apply strip_nil_blank in Hnil. congruence. }
    rewrite ask_runs_pipeline by exact Hq. split; [reflexivity|].
    rewrite pipeline_run. unfold trace.
    destruct (should_refuse_query query None); [reflexivity|].
    destruct (retrieve query) as [[passages best]|e]; [|reflexivity].
    destruct (Float.ltb best MIN_SCORE || (length passages =? 0)%nat); [reflexivity|].
    destruct (should_refuse_query query (Some passages)); [reflexivity|].
    destruct (generate_answer query (build_context passages)) as [answer|e];
      [|reflexivity].
    destruct (String.eqb (Text.strip answer) (Text.strip REFUSAL_TEXT));
      reflexivity.
Qed.

End HandlerFacts.

Section HandlerWitnesses.
Import Rag App Gates Notions Scenario.

Lemma generate_answer_returns_stripped_response_witness :
  (exists r body text,
     replies " An answer. " url
       {| model := llm; prompt := build_prompt sartre_query "context";
          stream := false |} 120%nat = Ok r /\
     requests_raise_for_status r = None /\
     json r = Some body /\
     body !! "response" = Some (JString text) /\
     "An answer." = Text.strip text) /\
  Text.strip "An answer." = "An answer.".
Proof.
  apply (generate_answer_returns_stripped_response url llm
           (replies " An answer. ") requests_raise_for_status
           sartre_query "context" "An answer.").
  vm_compute. reflexivity.
Defined.

(** The canonical refusal with whitespace around it is still a refusal;
    the same sentence in quotes is an answer. *)
Lemma self_refusal_is_exact_match_witness :
  refused (pipeline strong_search corpus url llm
                    (replies (" " ++ REFUSAL_TEXT ++ Text.newline))
                    requests_raise_for_status sartre_query) /\
  answered (pipeline strong_search corpus url llm
                     (replies (Text.dquote ++ REFUSAL_TEXT ++ Text.dquote))
                     requests_raise_for_status sartre_query)
           (Text.dquote ++ REFUSAL_TEXT ++ Text.dquote).
Proof.
  split.
  - apply (proj1 (self_refusal_is_exact_match strong_search corpus url llm
             (replies (" " ++ REFUSAL_TEXT ++ Text.newline))
             requests_raise_for_status sartre_query [kept_passage] (Float.Num (3 # 4))
             REFUSAL_TEXT
             ltac:(vm_compute; reflexivity) ltac:(vm_compute; reflexivity)
             ltac:(split; [right; vm_compute; discriminate | discriminate])
             ltac:(vm_compute; reflexivity) ltac:(vm_compute; reflexivity))).
    reflexivity.
  - apply (proj2 (self_refusal_is_exact_match strong_search corpus url llm
             (replies (Text.dquote ++ REFUSAL_TEXT ++ Text.dquote))
             requests_raise_for_status sartre_query [kept_passage] (Float.Num (3 # 4))
             (Text.dquote ++ REFUSAL_TEXT ++ Text.dquote)
             ltac:(vm_compute; reflexivity) ltac:(vm_compute; reflexivity)
             ltac:(split; [right; vm_compute; discriminate | discriminate])
             ltac:(vm_compute; reflexivity) ltac:(vm_compute; reflexivity))).
    vm_compute. discriminate.
Defined.

(** One passage is enough for an answer. *)
Lemma four_gates_suffice_witness :
  pipeline strong_search corpus url llm (replies good_answer)
           requests_raise_for_status sartre_query =
    ([Call_should_refuse_query sartre_query None; Call_retrieve sartre_query;
      St_write_scores (Float.Num (3 # 4)) MIN_SCORE;
      Call_should_refuse_query sartre_query (Some [kept_passage]);
      Call_build_context [kept_passage];
      Call_generate_answer sartre_query (build_context [kept_passage]);
      St_answer good_answer; St_sources [kept_passage];
      St_context (build_context [kept_passage])], Done tt) /\
  answered (pipeline strong_search corpus url llm (replies good_answer)
                     requests_raise_for_status sartre_query) good_answer.
Proof.
  apply (four_gates_suffice strong_search corpus url llm (replies good_answer)
           requests_raise_for_status sartre_query [kept_passage] (Float.Num (3 # 4))
           good_answer).
  - vm_compute. reflexivity.
  - vm_compute. reflexivity.
  - split; [right; vm_compute; discriminate | discriminate].
  - vm_compute. reflexivity.
  - vm_compute. reflexivity.
  - vm_compute. discriminate.
Defined.

Lemma run_refused_answered_or_failed_witness :
  ~ refused (pipeline strong_search corpus url llm times_out
                      requests_raise_for_status sartre_query) /\
  forall answer,
    ~ answered (pipeline strong_search corpus url llm times_out
                         requests_raise_for_status sartre_query) answer.
Proof.
  apply (proj2 (proj2 (run_refused_answered_or_failed strong_search corpus url
           llm times_out requests_raise_for_status sartre_query))
           (RequestException "Read timed out. (read timeout=120)")).
  vm_compute. reflexivity.
Defined.

(** A run on a best score of 0.75, and a run on a best score that is
    not a number: both reach the generator. *)
Lemma later_stages_only_behind_gates_witness :
  (sartre_query = sartre_query /\ topic_gate_passes sartre_query /\
   exists passages best,
     retrieve strong_search corpus sartre_query = Ok (passages, best) /\
     score_gate_passes passages best /\
     support_gate_passes sartre_query passages /\
     build_context [kept_passage] = build_context passages) /\
  (sartre_query = sartre_query /\ topic_gate_passes sartre_query /\
   exists passages best,
     retrieve nan_search corpus sartre_query = Ok (passages, best) /\
     score_gate_passes passages best /\
     support_gate_passes sartre_query passages /\
     build_context [nan_passage] = build_context passages).
Proof.
  split.
  - apply (proj2 (later_stages_only_behind_gates strong_search corpus url llm
             (replies good_answer) requests_raise_for_status sartre_query)).
    rewrite answered_run. unfold trace. cbn [fst]. event_solver.
  - apply (proj2 (later_stages_only_behind_gates nan_search corpus url llm
             (replies good_answer) requests_raise_for_status sartre_query)).
    rewrite nan_run. unfold trace. cbn [fst]. event_solver.
Defined.

Lemma only_the_refusal_text_is_shown_witness :
  REFUSAL_TEXT = REFUSAL_TEXT /\
  refused (pipeline weak_search corpus url llm (replies good_answer)
                    requests_raise_for_status sartre_query).
Proof.
  apply (only_the_refusal_text_is_shown weak_search corpus url llm
           (replies good_answer) requests_raise_for_status sartre_query).
  rewrite scenario_4. unfold trace. cbn [fst]. event_solver.
Defined.

(** A search that points past the end of the store. *)
Lemma retrieval_fault_propagates_witness :
  pipeline (fun _ _ => ([Float.Num (1 # 2)], [7%Z])) corpus url llm (replies good_answer)
           requests_raise_for_status sartre_query =
    ([Call_should_refuse_query sartre_query None; Call_retrieve sartre_query],
     Failed IndexError) /\
  ~ refused (pipeline (fun _ _ => ([Float.Num (1 # 2)], [7%Z])) corpus url llm
                      (replies good_answer) requests_raise_for_status
                      sartre_query).
Proof.
  apply (retrieval_fault_propagates (fun _ _ => ([Float.Num (1 # 2)], [7%Z])) corpus url llm
           (replies good_answer) requests_raise_for_status sartre_query).
  - vm_compute. reflexivity.
  - vm_compute. reflexivity.
Defined.

Lemma ask_needs_click_and_text_witness :
  ask strong_search corpus url llm (replies good_answer)
      requests_raise_for_status true (" " ++ Text.newline) = ([], Done tt) /\
  ask strong_search corpus url llm (replies good_answer)
      requests_raise_for_status true sartre_query
  = pipeline strong_search corpus url llm (replies good_answer)
             requests_raise_for_status sartre_query.
Proof.
  split.
  - apply (proj1 (ask_needs_click_and_text strong_search corpus url llm
             (replies good_answer) requests_raise_for_status true _)).
    right. reflexivity.
  - apply (proj2 (ask_needs_click_and_text strong_search corpus url llm
             (replies good_answer) requests_raise_for_status true sartre_query)
             eq_refl).
    reflexivity.
Defined.

End HandlerWitnesses.

Section IngestExamples.
Import Rag Ingest Notions.

Example normalize_page :
  normalize ("  Being   and" ++ Text.newline ++ "Nothingness ") = "Being and Nothingness".
Proof. reflexivity. Qed.

Example read_pdf_text_skips_blank_pages :
  read_pdf_text "sartre.pdf" [Some "  "; None; Some " Bad  faith "; Some ""; Some "x"]
  = [ {| p_text := "Bad faith"; p_page := 3; p_source := "sartre.pdf" |};
      {| p_text := "x"; p_page := 5; p_source := "sartre.pdf" |} ].
Proof. reflexivity. Qed.

Example build_corpus_two_files :
  build_corpus [("a.pdf", [Some "  "; Some "ab cd"]); ("b.pdf", [Some "zz"])]
  = Some [ mkChunk "ab cd" "a.pdf" 2; mkChunk "zz" "b.pdf" 1 ].
Proof. vm_compute. reflexivity. Qed.

End IngestExamples.
